(** * Babylon: BTC staking scripts, CLI argument parsing and epoching hooks

    A shallow embedding of three parts of the Babylon node:

    - [Epoching]: [x/epoching/types/hooks.go], the combinator that runs
      several epoching hooks in sequence;
    - [Cli]: the two argument parsers [parseLockTime] and [parseBtcAmount] of
      the [btcstaking] transaction commands;
    - [CliCommands]: the [RunE] functions of those commands, over the
      library calls they make;
    - [BtcStaking]: the staking output, its three spending paths and the
      witness assembly exercised by the [btcstaking] test suite;
    - [BtcStakingTest], [ScenarioGen]: the helpers of that test suite.

    Go values of type [(T, error)] are pairs of a value and an optional
    error; a Go panic is [None] around that pair. *)

From Stdlib Require Import String Ascii.
From Stdlib Require Import ZArith List Bool Lia Arith.
From Stdlib Require Import Sorting.Sorted Sorting.Permutation.
From coqutil Require Import Byte Word.LittleEndianList.
Import ListNotations.
Local Open Scope Z_scope.

(* ===================================================================== *)
(** * Epoching hooks *)
(* ===================================================================== *)

Module Epoching.

Section Hooks.
(** [Store] is the chain state a hook reaches through its [sdk.Context];
    [Error] is Go's [error] (a hook returns [nil] or an error). *)
Variables (Store Error : Type).

(** [sdk.Uint], an unsigned big integer. *)
Definition Uint := N.

(** One hook method: it may update the store and may fail. *)
Definition Hook := Uint -> Store -> option Error * Store.

(** The interface [EpochingHooks]. *)
Record EpochingHooks := {
  AfterEpochBegins : Hook;
  AfterEpochEnds : Hook
}.

Definition MultiEpochingHooks := list EpochingHooks.

Definition NewMultiEpochingHooks (hooks : list EpochingHooks) : MultiEpochingHooks :=
  hooks.

(** [for i := range h { if err := h[i].AfterEpochBegins(ctx, epoch); err != nil { return err } }; return nil] *)
Fixpoint Multi_AfterEpochBegins (h : MultiEpochingHooks) (epoch : Uint) (ctx : Store)
  : option Error * Store :=
  match h with
  | [] => (None, ctx)
  | hi :: rest =>
      match AfterEpochBegins hi epoch ctx with
      | (Some err, ctx') => (Some err, ctx')
      | (None, ctx') => Multi_AfterEpochBegins rest epoch ctx'
      end
  end.

Fixpoint Multi_AfterEpochEnds (h : MultiEpochingHooks) (epoch : Uint) (ctx : Store)
  : option Error * Store :=
  match h with
  | [] => (None, ctx)
  | hi :: rest =>
      match AfterEpochEnds hi epoch ctx with
      | (Some err, ctx') => (Some err, ctx')
      | (None, ctx') => Multi_AfterEpochEnds rest epoch ctx'
      end
  end.

(** [var _ EpochingHooks = &MultiEpochingHooks{}]: the combination is
    itself a hook set. *)
Definition MultiEpochingHooks_hooks (h : MultiEpochingHooks) : EpochingHooks :=
  {| AfterEpochBegins := Multi_AfterEpochBegins h;
     AfterEpochEnds := Multi_AfterEpochEnds h |}.

(** Both loops are the same loop over a different method. *)
Fixpoint run_hooks (method : EpochingHooks -> Hook) (h : MultiEpochingHooks)
  (epoch : Uint) (ctx : Store) : option Error * Store :=
  match h with
  | [] => (None, ctx)
  | hi :: rest =>
      match method hi epoch ctx with
      | (Some err, ctx') => (Some err, ctx')
      | (None, ctx') => run_hooks method rest epoch ctx'
      end
  end.

End Hooks.

Arguments AfterEpochBegins {Store Error} _ _ _.
Arguments AfterEpochEnds {Store Error} _ _ _.
Arguments Multi_AfterEpochBegins {Store Error} _ _ _.
Arguments Multi_AfterEpochEnds {Store Error} _ _ _.
Arguments run_hooks {Store Error} _ _ _ _.

(** ** Observing which hooks are invoked

    To speak about invocations, each hook is wrapped so that it records its
    own array index in a log when (and only when) it is called. *)
Section Logged.
Variables (Store Error : Type).

Definition logged_method (i : nat) (m : Hook Store Error) : Hook (Store * list nat) Error :=
  fun epoch st =>
    let '(ctx, log) := st in
    let '(r, ctx') := m epoch ctx in
    (r, (ctx', log ++ [i])).

Definition logged (i : nat) (hi : EpochingHooks Store Error)
  : EpochingHooks (Store * list nat) Error :=
  {| AfterEpochBegins := logged_method i (AfterEpochBegins hi);
     AfterEpochEnds := logged_method i (AfterEpochEnds hi) |}.

(** Hook number [i] of the array gets index [from + i]. *)
Fixpoint logged_from (from : nat) (h : MultiEpochingHooks Store Error)
  : MultiEpochingHooks (Store * list nat) Error :=
  match h with
  | [] => []
  | hi :: rest => logged from hi :: logged_from (S from) rest
  end.

Definition logged_hooks := logged_from 0.
End Logged.

Arguments logged_hooks {Store Error} _.
Arguments logged_from {Store Error} _ _.

End Epoching.

(* ===================================================================== *)
(** * CLI argument parsing *)
(* ===================================================================== *)

Module Cli.

(** A Go return [(v, err)]. *)
Definition result := (Z * option string)%type.

Definition MaxUint16 : Z := 65535.

(** [sdkmath.Int] wraps a [big.Int]: an unbounded integer. *)
Definition Int := Z.

Definition IsUint64 (num : Int) : bool := (0 <=? num) && (num <? 2 ^ 64).
Definition IsInt64 (num : Int) : bool := (- 2 ^ 63 <=? num) && (num <? 2 ^ 63).
Definition IsNegative (num : Int) : bool := num <? 0.

(** [Int.Uint64] and [Int.Int64] panic outside their range. *)
Definition Uint64 (num : Int) : option Z := if IsUint64 num then Some num else None.
Definition Int64 (num : Int) : option Z := if IsInt64 num then Some num else None.

(** The Go conversion [uint16(x)] of a [uint64]. *)
Definition uint16_of_uint64 (x : Z) : Z := x mod 2 ^ 16.

Section Parsers.
(** [sdkmath.NewIntFromString], from the Cosmos SDK: [Some n] when the
    string is accepted as the integer [n] ([ok = true]). *)
Variable NewIntFromString : string -> option Int.

Definition parseLockTime (str : string) : option result :=
  match NewIntFromString str with
  | None => Some (0, Some ("invalid staking time: " ++ str)%string)
  | Some num =>
      if negb (IsUint64 num) then Some (0, Some "staking time is not valid uint"%string)
      else
        match Uint64 num with
        | None => None
        | Some asUint64 =>
            if MaxUint16 <? asUint64
            then Some (0, Some "staking time is too large. Max is 65535"%string)
            else Some (uint16_of_uint64 asUint64, None)
        end
  end.

Definition parseBtcAmount (str : string) : option result :=
  match NewIntFromString str with
  | None => Some (0, Some ("invalid staking value: " ++ str)%string)
  | Some num =>
      if IsNegative num then Some (0, Some "staking value is negative"%string)
      else if negb (IsInt64 num) then Some (0, Some "staking value is not valid uint"%string)
      else
        match Int64 num with
        | None => None
        | Some asInt64 => Some (asInt64, None)
        end
  end.
End Parsers.

(** ** A decimal reader

    Used to run the parsers on concrete strings: an optional sign followed by
    one or more decimal digits. *)
Definition digit_of_ascii (c : ascii) : option Z :=
  let n := Z.of_nat (nat_of_ascii c) in
  if (48 <=? n) && (n <=? 57) then Some (n - 48) else None.

Fixpoint digits_value (acc : Z) (s : string) : option Z :=
  match s with
  | EmptyString => Some acc
  | String c rest =>
      match digit_of_ascii c with
      | Some d => digits_value (10 * acc + d) rest
      | None => None
      end
  end.

Definition decimalFromString (s : string) : option Int :=
  match s with
  | EmptyString => None
  | String "-"%char (String c rest) => option_map Z.opp (digits_value 0 (String c rest))
  | String "+"%char (String c rest) => digits_value 0 (String c rest)
  | _ => digits_value 0 s
  end.

End Cli.

(* ===================================================================== *)
(** * Byte strings *)
(* ===================================================================== *)

Definition bytes := list byte.

Module Bytes.

Definition eqb (a b : bytes) : bool :=
  if list_eq_dec Byte.byte_eq_dec a b then true else false.

(** Go's [bytes.Compare]: lexicographic on unsigned bytes, result -1, 0 or 1. *)
Fixpoint Compare (a b : bytes) : Z :=
  match a, b with
  | [], [] => 0
  | [], _ :: _ => -1
  | _ :: _, [] => 1
  | x :: a', y :: b' =>
      if byte.unsigned x <? byte.unsigned y then -1
      else if byte.unsigned y <? byte.unsigned x then 1
      else Compare a' b'
  end.

(** The [n] low bytes of [z], least significant first. *)
Definition le (n : nat) (z : Z) : bytes := le_split n z.

(** The [n] low bytes of [z], most significant first. *)
Definition be (n : nat) (z : Z) : bytes := rev (le_split n z).

Definition of_string (s : string) : bytes :=
  map (fun c => byte.of_Z (Z.of_nat (nat_of_ascii c))) (list_ascii_of_string s).

Definition len (b : bytes) : Z := Z.of_nat (length b).

End Bytes.

(* ===================================================================== *)
(** * Stable sorting ([sort.SliceStable]) *)
(* ===================================================================== *)

Module Sort.
Section Stable.
Context {A : Type}.
(** [less a b]: [a] must come before [b]. *)
Variable less : A -> A -> bool.

(** [x] stood before every element of the sorted list [l]: it goes
    before the first element that is not strictly before it. *)
Fixpoint insert (x : A) (l : list A) : list A :=
  match l with
  | [] => [x]
  | y :: l' => if less y x then y :: insert x l' else x :: y :: l'
  end.

(** The result of [sort.SliceStable(l, less)]: the stable arrangement of
    [l] by [less], computed here by insertion. *)
Fixpoint SliceStable (l : list A) : list A :=
  match l with
  | [] => []
  | x :: l' => insert x (SliceStable l')
  end.
End Stable.
End Sort.

(* ===================================================================== *)
(** * Bitcoin script: numbers, opcodes, serialization *)
(* ===================================================================== *)

Module Script.

(** ** Script numbers ([txscript.scriptNum]) *)

(** The loop [for n > 0 { result = append(result, byte(n&0xff)); n >>= 8 }];
    a script number is an [int64], so eight rounds are enough. *)
Fixpoint magnitude_bytes (rounds : nat) (n : Z) : bytes :=
  match rounds with
  | O => []
  | S r =>
      if 0 <? n then byte.of_Z (Z.land n 255) :: magnitude_bytes r (Z.shiftr n 8)
      else []
  end.

Definition high_bit_set (b : byte) : bool := negb (Z.land (byte.unsigned b) 128 =? 0).

(** [scriptNum.Bytes]: little-endian magnitude, sign in the top bit of the
    last byte, an extra byte when that bit is taken. *)
Definition scriptNum_Bytes (n : Z) : bytes :=
  if n =? 0 then []
  else
    let isNegative := n <? 0 in
    let result := magnitude_bytes 8 (Z.abs n) in
    if high_bit_set (last result Byte.x00)
    then result ++ [if isNegative then Byte.x80 else Byte.x00]
    else if isNegative
         then removelast result
              ++ [byte.of_Z (Z.lor (byte.unsigned (last result Byte.x00)) 128)]
         else result.

(** [checkMinimalDataEncoding]. *)
Definition minimally_encoded (v : bytes) : bool :=
  match rev v with
  | [] => true
  | top :: below =>
      if Z.land (byte.unsigned top) 127 =? 0
      then match below with
           | [] => false
           | next :: _ => high_bit_set next
           end
      else true
  end.

(** [MakeScriptNum(v, requireMinimal = true, scriptNumLen)]; [None] is an
    error. *)
Definition MakeScriptNum (v : bytes) (scriptNumLen : nat) : option Z :=
  if (scriptNumLen <? length v)%nat then None
  else if negb (minimally_encoded v) then None
  else
    match v with
    | [] => Some 0
    | _ =>
        let result := le_combine v in
        if high_bit_set (last v Byte.x00)
        then Some (- (Z.land result (Z.lnot (Z.shiftl 128 (8 * (Bytes.len v - 1))))))
        else Some result
    end.

(** [asBool]: any non-zero byte, except the sign bit of the last byte alone. *)
Fixpoint asBool (t : bytes) : bool :=
  match t with
  | [] => false
  | b :: rest =>
      if byte.unsigned b =? 0 then asBool rest
      else match rest with
           | [] => negb (byte.unsigned b =? 128)
           | _ => true
           end
  end.

Definition fromBool (v : bool) : bytes := if v then [Byte.x01] else [].

(** ** Opcodes

    The opcodes the staking scripts are made of, as the tokenizer yields
    them. *)
Inductive opcode :=
| OP_N (n : Z)              (** [OP_0], [OP_1] .. [OP_16]: push the number [n] *)
| OP_DATA (data : bytes)    (** [OP_DATA_1] .. [OP_DATA_75]: push [data] *)
| OP_VERIFY
| OP_GREATERTHANOREQUAL
| OP_CHECKSIG
| OP_CHECKSIGVERIFY
| OP_CHECKSEQUENCEVERIFY
| OP_CHECKSIGADD.

Definition script := list opcode.

(** ** Building scripts ([txscript.ScriptBuilder]) *)

(** [AddData] for the sizes the staking scripts use (1 to 75 bytes, not a
    single small number), and [AddInt64] for non-negative numbers. *)
Definition AddData (data : bytes) : opcode := OP_DATA data.

Definition AddInt64 (n : Z) : opcode :=
  if (0 <=? n) && (n <=? 16) then OP_N n else OP_DATA (scriptNum_Bytes n).

(** ** Serialization *)

Definition opcode_bytes (op : opcode) : bytes :=
  match op with
  | OP_N n => if n =? 0 then [Byte.x00] else [byte.of_Z (80 + n)]
  | OP_DATA data => byte.of_Z (Bytes.len data) :: data
  | OP_VERIFY => [Byte.x69]
  | OP_GREATERTHANOREQUAL => [Byte.xa2]
  | OP_CHECKSIG => [Byte.xac]
  | OP_CHECKSIGVERIFY => [Byte.xad]
  | OP_CHECKSEQUENCEVERIFY => [Byte.xb2]
  | OP_CHECKSIGADD => [Byte.xba]
  end.

Definition serialize (s : script) : bytes := flat_map opcode_bytes s.

(** The tokenizer: [None] on a truncated push or on an opcode outside the
    set above. The fuel is the script length: each round consumes a byte. *)
Fixpoint tokenize (fuel : nat) (b : bytes) : option script :=
  match fuel with
  | O => match b with [] => Some [] | _ => None end
  | S fuel' =>
      match b with
      | [] => Some []
      | x :: rest =>
          let c := byte.unsigned x in
          let continue (op : opcode) (rest' : bytes) :=
            option_map (cons op) (tokenize fuel' rest') in
          if c =? 0 then continue (OP_N 0) rest
          else if c <=? 75 then
            let n := Z.to_nat c in
            if (length rest <? n)%nat then None
            else continue (OP_DATA (firstn n rest)) (skipn n rest)
          else if (81 <=? c) && (c <=? 96) then continue (OP_N (c - 80)) rest
          else if c =? 105 then continue OP_VERIFY rest
          else if c =? 162 then continue OP_GREATERTHANOREQUAL rest
          else if c =? 172 then continue OP_CHECKSIG rest
          else if c =? 173 then continue OP_CHECKSIGVERIFY rest
          else if c =? 178 then continue OP_CHECKSEQUENCEVERIFY rest
          else if c =? 186 then continue OP_CHECKSIGADD rest
          else None
      end
  end.

Definition parse (b : bytes) : option script := tokenize (length b) b.

End Script.

(* ===================================================================== *)
(** * Transactions ([wire]) *)
(* ===================================================================== *)

Module Wire.

Record OutPoint := { Hash : bytes; Index : Z }.

Record TxIn := {
  PreviousOutPoint : OutPoint;
  SignatureScript : bytes;
  Witness : list bytes;
  Sequence : Z            (** [uint32] *)
}.

Record TxOut := { Value : Z; PkScript : bytes }.

Record MsgTx := {
  Version : Z;            (** [int32] *)
  MsgTx_TxIn : list TxIn;
  MsgTx_TxOut : list TxOut;
  LockTime : Z
}.

Definition MaxTxInSequenceNum : Z := 0xffffffff.
Definition SequenceLockTimeDisabled : Z := Z.shiftl 1 31.
Definition SequenceLockTimeIsSeconds : Z := Z.shiftl 1 22.
Definition SequenceLockTimeMask : Z := 0x0000ffff.

Definition NewTxIn (prevOut : OutPoint) (signatureScript : bytes) (witness : list bytes) : TxIn :=
  {| PreviousOutPoint := prevOut; SignatureScript := signatureScript;
     Witness := witness; Sequence := MaxTxInSequenceNum |}.

Definition NewMsgTx (version : Z) : MsgTx :=
  {| Version := version; MsgTx_TxIn := []; MsgTx_TxOut := []; LockTime := 0 |}.

Definition AddTxIn (ti : TxIn) (tx : MsgTx) : MsgTx :=
  {| Version := Version tx; MsgTx_TxIn := MsgTx_TxIn tx ++ [ti];
     MsgTx_TxOut := MsgTx_TxOut tx; LockTime := LockTime tx |}.

Definition AddTxOut (to : TxOut) (tx : MsgTx) : MsgTx :=
  {| Version := Version tx; MsgTx_TxIn := MsgTx_TxIn tx;
     MsgTx_TxOut := MsgTx_TxOut tx ++ [to]; LockTime := LockTime tx |}.

Definition setSequence (s : Z) (ti : TxIn) : TxIn :=
  {| PreviousOutPoint := PreviousOutPoint ti; SignatureScript := SignatureScript ti;
     Witness := Witness ti; Sequence := s |}.

Definition setWitness (w : list bytes) (ti : TxIn) : TxIn :=
  {| PreviousOutPoint := PreviousOutPoint ti; SignatureScript := SignatureScript ti;
     Witness := w; Sequence := Sequence ti |}.

(** Update input [i] in place; out of range the transaction is unchanged
    (the Go statement would panic; no caller here does that). *)
Fixpoint update_nth {A} (i : nat) (f : A -> A) (l : list A) : list A :=
  match l, i with
  | [], _ => []
  | x :: l', O => f x :: l'
  | x :: l', S i' => x :: update_nth i' f l'
  end.

Definition mapTxIn (f : list TxIn -> list TxIn) (tx : MsgTx) : MsgTx :=
  {| Version := Version tx; MsgTx_TxIn := f (MsgTx_TxIn tx);
     MsgTx_TxOut := MsgTx_TxOut tx; LockTime := LockTime tx |}.

(** [tx.TxIn[i].Sequence = s] and [tx.TxIn[i].Witness = w]. *)
Definition SetSequence (i : nat) (s : Z) (tx : MsgTx) : MsgTx :=
  mapTxIn (update_nth i (setSequence s)) tx.

Definition SetWitness (i : nat) (w : list bytes) (tx : MsgTx) : MsgTx :=
  mapTxIn (update_nth i (setWitness w)) tx.

(** The transaction as a signature hash sees it: witnesses are not part of
    the signed data. *)
Definition WithoutWitness (tx : MsgTx) : MsgTx :=
  mapTxIn (map (setWitness [])) tx.

End Wire.

(* ===================================================================== *)
(** * Cryptographic primitives *)
(* ===================================================================== *)

(** The hash function, the curve operations and the signature scheme come
    from the underlying libraries; nothing is assumed about them. A
    256-bit result is a number, serialized to 32 bytes where it is used. *)
Class Primitives := {
  (** [chainhash.TaggedHash(tag, msg)] *)
  TaggedHash : bytes -> bytes -> Z;
  (** [txscript.ComputeTaprootOutputKey(internalKey, scriptRoot)]: the
      x coordinate of the tweaked key and whether its y is odd *)
  ComputeTaprootOutputKey : bytes -> bytes -> Z * bool;
  (** The BIP-341 signature hash for a hash type, a transaction, an input
      index, the output being spent and, on the script path, the hash of
      the revealed leaf *)
  TaprootSigHash : Z -> Wire.MsgTx -> nat -> Wire.TxOut -> option bytes -> bytes;
  (** BIP-340 verification: public key, message, signature *)
  SchnorrVerify : bytes -> bytes -> bytes -> bool;
  (** Signing keys *)
  PrivateKey : Type;
  PubKey : PrivateKey -> bytes;
  SchnorrSign : PrivateKey -> bytes -> bytes
}.

Definition hash32 (h : Z) : bytes := Bytes.be 32 h.

(* ===================================================================== *)
(** * Taproot script trees *)
(* ===================================================================== *)

Module Taproot.

Definition BaseLeafVersion : Z := 0xc0.
Definition TaprootLeafMask : Z := 0xfe.
Definition ControlBlockBaseSize : nat := 33.
Definition ControlBlockNodeSize : nat := 32.
Definition ControlBlockMaxNodeCount : nat := 128.

Record TapLeaf := { LeafVersion : Z; Script : bytes }.

(** [wire.WriteVarInt]. *)
Definition compactSize (n : Z) : bytes :=
  if n <? 0xfd then [byte.of_Z n]
  else if n <=? 0xffff then Byte.xfd :: Bytes.le 2 n
  else if n <=? 0xffffffff then Byte.xfe :: Bytes.le 4 n
  else Byte.xff :: Bytes.le 8 n.

Section Hashing.
Context {P : Primitives}.

Definition TapHash (leaf : TapLeaf) : bytes :=
  hash32 (TaggedHash (Bytes.of_string "TapLeaf")
            (byte.of_Z (LeafVersion leaf)
             :: compactSize (Bytes.len (Script leaf)) ++ Script leaf)).

(** [tapBranchHash]: the two children are hashed in byte order. *)
Definition tapBranchHash (l r : bytes) : bytes :=
  if 0 <? Bytes.Compare l r
  then hash32 (TaggedHash (Bytes.of_string "TapBranch") (r ++ l))
  else hash32 (TaggedHash (Bytes.of_string "TapBranch") (l ++ r)).

Record ControlBlock := {
  InternalKey : bytes;
  OutputKeyYIsOdd : bool;
  CB_LeafVersion : Z;
  InclusionProof : bytes
}.

Definition ControlBlock_ToBytes (cb : ControlBlock) : bytes :=
  byte.of_Z (Z.lor (CB_LeafVersion cb) (if OutputKeyYIsOdd cb then 1 else 0))
  :: InternalKey cb ++ InclusionProof cb.

Definition ParseControlBlock (b : bytes) : option ControlBlock :=
  match b with
  | [] => None
  | b0 :: rest =>
      if (length b <? ControlBlockBaseSize)%nat then None
      else if (ControlBlockBaseSize + ControlBlockNodeSize * ControlBlockMaxNodeCount <? length b)%nat
      then None
      else if negb ((length b - ControlBlockBaseSize) mod ControlBlockNodeSize =? 0)%nat
      then None
      else Some {| InternalKey := firstn 32 rest;
                   OutputKeyYIsOdd := Z.land (byte.unsigned b0) 1 =? 1;
                   CB_LeafVersion := Z.land (byte.unsigned b0) TaprootLeafMask;
                   InclusionProof := skipn 32 rest |}
  end.

(** Fold the inclusion proof, one 32-byte node at a time. *)
Fixpoint merkle_fold (nodes : nat) (proof : bytes) (h : bytes) : bytes :=
  match nodes with
  | O => h
  | S n => merkle_fold n (skipn 32 proof) (tapBranchHash h (firstn 32 proof))
  end.

Definition RootHash (cb : ControlBlock) (revealedScript : bytes) : bytes :=
  merkle_fold (length (InclusionProof cb) / ControlBlockNodeSize) (InclusionProof cb)
    (TapHash {| LeafVersion := CB_LeafVersion cb; Script := revealedScript |}).

(** [VerifyTaprootLeafCommitment]. *)
Definition VerifyTaprootLeafCommitment (cb : ControlBlock) (taprootWitnessProgram : bytes)
  (revealedScript : bytes) : bool :=
  let '(x, yIsOdd) := ComputeTaprootOutputKey (InternalKey cb) (RootHash cb revealedScript) in
  Bytes.eqb (hash32 x) taprootWitnessProgram && Bool.eqb (OutputKeyYIsOdd cb) yIsOdd.

(** [PayToTaprootScript]: [OP_1 OP_DATA_32 <key>]. *)
Definition PayToTaprootScript (outputKeyX : Z) : bytes :=
  Byte.x51 :: Byte.x20 :: hash32 outputKeyX.
End Hashing.

End Taproot.

(* ===================================================================== *)
(** * The script interpreter ([txscript.Engine]) *)
(* ===================================================================== *)

(** The interpreter is the judge of every witness. This is the part of it
    that a taproot spend of a staking output exercises, under the standard
    verification flags: witness-program dispatch, control-block
    verification, and tapscript execution of the opcodes of [Script.opcode].
    Resource limits (stack depth, element size, signature-operation budget)
    are not represented, and a script with any other opcode is refused. *)
Module Engine.

Import Script.

Definition stack := list bytes.   (** head = top of the stack *)

Definition maxScriptNumLen : nat := 4.
Definition cltvMaxScriptNumLen : nat := 5.

Section Exec.
Context {P : Primitives}.
Variables (tx : Wire.MsgTx) (txIdx : nat) (prevOut : Wire.TxOut).
(** Hash of the revealed leaf; [None] on the key path. *)
Variable tapLeafHash : option bytes.

Definition validTaprootSigHashType (ht : Z) : bool :=
  (ht =? 1) || (ht =? 2) || (ht =? 3) || (ht =? 0x81) || (ht =? 0x82) || (ht =? 0x83).

Definition sigHash (hashType : Z) : bytes :=
  TaprootSigHash hashType (Wire.WithoutWitness tx) txIdx prevOut tapLeafHash.

(** A 64-byte signature signs with the default hash type; a 65-byte one
    carries its hash type in the last byte. *)
Definition verifyTaprootSig (pk sig : bytes) : bool :=
  if (length sig =? 64)%nat then SchnorrVerify pk (sigHash 0) sig
  else if (length sig =? 65)%nat then
    let ht := byte.unsigned (last sig Byte.x00) in
    validTaprootSigHashType ht && SchnorrVerify pk (sigHash ht) (firstn 64 sig)
  else false.

(** Tapscript signature checking: [None] aborts the script, [Some b] is
    the outcome. An empty signature is a plain "no"; a non-empty one
    must verify. *)
Definition checkSig (pk sig : bytes) : option bool :=
  if (length pk =? 0)%nat then None
  else if (length sig =? 0)%nat then Some false
  else if (length pk =? 32)%nat then
    if verifyTaprootSig pk sig then Some true else None
  else None.

Definition verifyLockTime (txLockTime threshold lockTime : Z) : bool :=
  (((txLockTime <? threshold) && (lockTime <? threshold))
   || ((threshold <=? txLockTime) && (threshold <=? lockTime)))
  && (lockTime <=? txLockTime).

Definition opcodeCheckSequenceVerify (st : stack) : option stack :=
  match st with
  | [] => None
  | so :: _ =>
      match MakeScriptNum so cltvMaxScriptNumLen with
      | None => None
      | Some stackSequence =>
          if stackSequence <? 0 then None
          else if negb (Z.land stackSequence Wire.SequenceLockTimeDisabled =? 0) then Some st
          else if Wire.Version tx mod 2 ^ 32 <? 2 then None
          else
            match nth_error (Wire.MsgTx_TxIn tx) txIdx with
            | None => None
            | Some txIn =>
                let txSequence := Wire.Sequence txIn in
                if negb (Z.land txSequence Wire.SequenceLockTimeDisabled =? 0) then None
                else
                  let lockTimeMask :=
                    Z.lor Wire.SequenceLockTimeIsSeconds Wire.SequenceLockTimeMask in
                  if verifyLockTime (Z.land txSequence lockTimeMask)
                       Wire.SequenceLockTimeIsSeconds
                       (Z.land stackSequence lockTimeMask)
                  then Some st else None
            end
      end
  end.

Definition abstractVerify (st : stack) : option stack :=
  match st with
  | [] => None
  | v :: rest => if asBool v then Some rest else None
  end.

Definition opcodeCheckSig (st : stack) : option stack :=
  match st with
  | pkBytes :: fullSigBytes :: rest =>
      match checkSig pkBytes fullSigBytes with
      | Some valid => Some (fromBool valid :: rest)
      | None => None
      end
  | _ => None
  end.

Definition opcodeCheckSigAdd (st : stack) : option stack :=
  match st with
  | pubKeyBytes :: acc :: sigBytes :: rest =>
      match MakeScriptNum acc maxScriptNumLen with
      | None => None
      | Some accumulatorInt =>
          match checkSig pubKeyBytes sigBytes with
          | None => None
          | Some false => Some (scriptNum_Bytes accumulatorInt :: rest)
          | Some true => Some (scriptNum_Bytes (accumulatorInt + 1) :: rest)
          end
      end
  | _ => None
  end.

Definition opcodeGreaterThanOrEqual (st : stack) : option stack :=
  match st with
  | b0 :: b1 :: rest =>
      match MakeScriptNum b0 maxScriptNumLen, MakeScriptNum b1 maxScriptNumLen with
      | Some v0, Some v1 => Some (scriptNum_Bytes (if v0 <=? v1 then 1 else 0) :: rest)
      | _, _ => None
      end
  | _ => None
  end.

Definition step (op : opcode) (st : stack) : option stack :=
  match op with
  | OP_N n => Some (scriptNum_Bytes n :: st)
  | OP_DATA data => Some (data :: st)
  | OP_VERIFY => abstractVerify st
  | OP_GREATERTHANOREQUAL => opcodeGreaterThanOrEqual st
  | OP_CHECKSIG => opcodeCheckSig st
  | OP_CHECKSIGVERIFY =>
      match opcodeCheckSig st with
      | Some st' => abstractVerify st'
      | None => None
      end
  | OP_CHECKSEQUENCEVERIFY => opcodeCheckSequenceVerify st
  | OP_CHECKSIGADD => opcodeCheckSigAdd st
  end.

Fixpoint run (s : script) (st : stack) : option stack :=
  match s with
  | [] => Some st
  | op :: rest =>
      match step op st with
      | Some st' => run rest st'
      | None => None
      end
  end.

(** A witness script must leave exactly one element, and a true one. *)
Definition CheckErrorCondition (final : option stack) : bool :=
  match final with
  | Some [v] => asBool v
  | _ => false
  end.
End Exec.

Section Execute.
Context {P : Primitives}.

Definition TaprootAnnexTag : Z := 0x50.

Definition isAnnexedWitness (witness : list bytes) : bool :=
  (2 <=? length witness)%nat
  && match last witness [] with
     | b :: _ => byte.unsigned b =? TaprootAnnexTag
     | [] => false
     end.

(** [Some program] when [pkScript] is [OP_1 OP_DATA_32 <program>]. *)
Definition taprootWitnessProgram (pkScript : bytes) : option bytes :=
  match pkScript with
  | v :: n :: program =>
      if (byte.unsigned v =? 0x51) && (byte.unsigned n =? 0x20)
         && (length program =? 32)%nat
      then Some program else None
  | _ => None
  end.

(** [NewEngine(pkScript, tx, txIdx, StandardVerifyFlags, ..., prevOut)]
    followed by [Execute]: [true] when the spend is accepted. *)
Definition Execute (pkScript : bytes) (tx : Wire.MsgTx) (txIdx : nat) (prevOut : Wire.TxOut)
  : bool :=
  match nth_error (Wire.MsgTx_TxIn tx) txIdx, taprootWitnessProgram pkScript with
  | Some txIn, Some program =>
      if negb (length (Wire.SignatureScript txIn) =? 0)%nat then false
      else
        let witness :=
          if isAnnexedWitness (Wire.Witness txIn) then removelast (Wire.Witness txIn)
          else Wire.Witness txIn in
        match rev witness with
        | [] => false
        | [rawSig] => verifyTaprootSig tx txIdx prevOut None program rawSig
        | controlBlockBytes :: witnessScript :: items =>
            match Taproot.ParseControlBlock controlBlockBytes with
            | None => false
            | Some controlBlock =>
                if negb (Taproot.VerifyTaprootLeafCommitment controlBlock program witnessScript)
                then false
                else if negb (Taproot.CB_LeafVersion controlBlock =? Taproot.BaseLeafVersion)
                then false
                else
                  match parse witnessScript with
                  | None => false
                  | Some s =>
                      let leafHash :=
                        Taproot.TapHash {| Taproot.LeafVersion := Taproot.BaseLeafVersion;
                                           Taproot.Script := witnessScript |} in
                      CheckErrorCondition (run tx txIdx prevOut (Some leafHash) s items)
                  end
            end
        end
  | _, _ => false
  end.
End Execute.

End Engine.

(* ===================================================================== *)
(** * Keys and signatures ([btcec], [schnorr]) *)
(* ===================================================================== *)

Module schnorr.
(** A public key is carried as its 32-byte x-only serialization, a
    signature as its 64-byte serialization. *)
Definition PublicKey := bytes.
Definition Signature := bytes.
Definition SerializePubKey (k : PublicKey) : bytes := k.
Definition Serialize (s : Signature) : bytes := s.
Definition PubKeyBytesLen : nat := 32.
Definition SignatureSize : nat := 64.
End schnorr.

(* ===================================================================== *)
(** * The staking output ([btcstaking]) *)
(* ===================================================================== *)

Module BtcStaking.

Import Script.

(** [chaincfg.Params]: the network only matters for addresses. *)
Inductive Params := MainNetParams | TestNet3Params | SigNetParams | RegressionNetParams | SimNetParams.

Inductive ConfigurationError := InvalidThreshold | EmptyKeySet | KeySerializationError.
Inductive CryptographicError := SighashComputationError | SigningError.
Inductive WitnessAssemblyError := SignatureCountMismatch (expected got : nat).

(** Modelled from the spec: the shared ordering function of the script
    builder and the witness assembler (the [btcstaking] package is not among
    the sources). Signature slots follow the keys in descending
    byte-lexicographic order of their serialization; the test helper
    [sortSignatureInfo] sorts by the same comparison. *)
Definition keyBefore (a b : schnorr.PublicKey) : bool :=
  Bytes.Compare (schnorr.SerializePubKey a) (schnorr.SerializePubKey b) =? 1.

(** Modelled from the spec: the slot order of a key list ([btcstaking]'s key
    sorting is not among the sources). *)
Definition sortKeys (keys : list schnorr.PublicKey) : list schnorr.PublicKey :=
  Sort.SliceStable keyBefore keys.

(** ** Script templates *)

(** Modelled from the spec: [KeySet] and [LockParams] of the data model. *)
Record KeySet := {
  staker : schnorr.PublicKey;
  validators : list schnorr.PublicKey;
  covenant : list schnorr.PublicKey;
  covenant_threshold : Z
}.

Record LockParams := {
  staking_amount : Z;
  timelock_blocks : Z;
  network : Params
}.

(** Modelled from the spec: the three leaf kinds, each with the keys of its
    roles in slot order. *)
Inductive LeafTemplate :=
| TimeLock (stakerKey : schnorr.PublicKey) (lockTime : Z)
| Unbonding (stakerKey : schnorr.PublicKey) (covenantKeys : list schnorr.PublicKey)
    (covenantThreshold : Z)
| Slashing (stakerKey : schnorr.PublicKey) (validatorKeys covenantKeys : list schnorr.PublicKey)
    (covenantThreshold : Z).

Definition covenantSlots (t : LeafTemplate) : list schnorr.PublicKey :=
  match t with
  | TimeLock _ _ => []
  | Unbonding _ c _ => c
  | Slashing _ _ c _ => c
  end.

Definition validatorSlots (t : LeafTemplate) : list schnorr.PublicKey :=
  match t with
  | Slashing _ v _ _ => v
  | _ => []
  end.

(** Modelled from the spec: a single mandatory signature check ([withVerify]
    when more script follows). *)
Definition buildSingleKeySigScript (pubKey : schnorr.PublicKey) (withVerify : bool) : script :=
  [AddData (schnorr.SerializePubKey pubKey);
   if withVerify then OP_CHECKSIGVERIFY else OP_CHECKSIG].

(** Each further key adds 0 or 1 to the running count. *)
Fixpoint accumulateSigs (keys : list schnorr.PublicKey) : script :=
  match keys with
  | [] => []
  | key :: rest => AddData (schnorr.SerializePubKey key) :: OP_CHECKSIGADD :: accumulateSigs rest
  end.

(** Modelled from the spec: the generic threshold-over-key-list generator,
    an accumulate-and-compare script of size linear in the key list. The
    interpreter takes witness elements from the top of the stack, that is
    from the last slot to the first, so the keys are laid out from the last
    slot to the first. *)
Definition buildMultiSigScript (slotKeys : list schnorr.PublicKey) (threshold : Z)
  (withVerify : bool) : script :=
  match rev slotKeys with
  | [] => []
  | key :: rest =>
      AddData (schnorr.SerializePubKey key) :: OP_CHECKSIG :: accumulateSigs rest
      ++ [AddInt64 threshold; OP_GREATERTHANOREQUAL]
      ++ (if withVerify then [OP_VERIFY] else [])
  end.

(** Modelled from the spec: the timelock leaf, the staker's signature check
    followed by the enforced relative-locktime comparison. *)
Definition buildTimeLockScript (pubKey : schnorr.PublicKey) (lockTime : Z) : script :=
  [AddData (schnorr.SerializePubKey pubKey); OP_CHECKSIGVERIFY;
   AddInt64 lockTime; OP_CHECKSEQUENCEVERIFY].

(** Modelled from the spec: compilation of the three leaves of section 4.1. *)
Definition compile (t : LeafTemplate) : script :=
  match t with
  | TimeLock stakerKey lockTime => buildTimeLockScript stakerKey lockTime
  | Unbonding stakerKey covenantKeys threshold =>
      buildSingleKeySigScript stakerKey true
      ++ buildMultiSigScript covenantKeys threshold false
  | Slashing stakerKey validatorKeys covenantKeys threshold =>
      buildSingleKeySigScript stakerKey true
      ++ buildMultiSigScript validatorKeys 1 true
      ++ buildMultiSigScript covenantKeys threshold false
  end.

(** Modelled from the spec: [LeafScript], a compiled script with its leaf
    version (and the template it was compiled from). *)
Record LeafScript := {
  template : LeafTemplate;
  RevealedLeaf : Taproot.TapLeaf
}.

Definition NewLeafScript (t : LeafTemplate) : LeafScript :=
  {| template := t;
     RevealedLeaf := {| Taproot.LeafVersion := Taproot.BaseLeafVersion;
                        Taproot.Script := serialize (compile t) |} |}.

(** ** The script tree and the output *)

(** Modelled from the spec: the fixed internal key nobody can sign for, the
    point H of BIP-341. *)
Definition unspendableKeyPathKey : bytes :=
  Bytes.be 32 0x50929b74c1a04954b78b4b6035e97a5e078a5a0f28ec96d547bfee9ace803ac0.

(** Modelled from the spec: [ScriptTree], the internal key and the three
    leaves; the first two leaves are paired and the third joins their
    branch. *)
Record ScriptTree := {
  internal_key : bytes;
  timeLockLeaf : LeafScript;
  unbondingLeaf : LeafScript;
  slashingLeaf : LeafScript
}.

(** Modelled from the spec: [SpendInfo], the revealed leaf and its control
    block. *)
Record SpendInfo := {
  leaf_script : LeafScript;
  control_block : Taproot.ControlBlock
}.

(** Modelled from the spec: [StakingOutputDescriptor]. *)
Record StakingInfo := {
  StakingOutput : Wire.TxOut;
  scriptTree : ScriptTree
}.

Section Build.
Context {P : Primitives}.

Definition leafHash (l : LeafScript) : bytes := Taproot.TapHash (RevealedLeaf l).

Definition merkleRoot (t : ScriptTree) : bytes :=
  Taproot.tapBranchHash
    (Taproot.tapBranchHash (leafHash (timeLockLeaf t)) (leafHash (unbondingLeaf t)))
    (leafHash (slashingLeaf t)).

Definition outputKey (t : ScriptTree) : Z * bool :=
  ComputeTaprootOutputKey (internal_key t) (merkleRoot t).

Definition controlBlock (t : ScriptTree) (inclusionProof : bytes) : Taproot.ControlBlock :=
  {| Taproot.InternalKey := internal_key t;
     Taproot.OutputKeyYIsOdd := snd (outputKey t);
     Taproot.CB_LeafVersion := Taproot.BaseLeafVersion;
     Taproot.InclusionProof := inclusionProof |}.

Definition validKey (k : schnorr.PublicKey) : bool :=
  (length (schnorr.SerializePubKey k) =? schnorr.PubKeyBytesLen)%nat.

(** Modelled from the spec: sections 4.1 and 4.2, the builder of the
    staking output ([btcstaking.BuildStakingInfo] is called by the tests
    but is not among the sources). *)
Definition BuildStakingInfo (stakerKey : schnorr.PublicKey)
  (validatorKeys covenantKeys : list schnorr.PublicKey) (covenantThreshold : Z)
  (stakingTime : Z) (stakingAmount : Z) (net : Params)
  : ConfigurationError + StakingInfo :=
  let keys := {| staker := stakerKey; validators := validatorKeys;
                 covenant := covenantKeys; covenant_threshold := covenantThreshold |} in
  let lock := {| staking_amount := stakingAmount; timelock_blocks := stakingTime;
                 network := net |} in
  if ((length (validators keys) =? 0) || (length (covenant keys) =? 0))%nat
  then inl EmptyKeySet
  else if (covenant_threshold keys <=? 0)
          || (Z.of_nat (length (covenant keys)) <? covenant_threshold keys)
  then inl InvalidThreshold
  else if negb (validKey (staker keys) && forallb validKey (validators keys)
                && forallb validKey (covenant keys))
  then inl KeySerializationError
  else
    let vs := sortKeys (validators keys) in
    let cs := sortKeys (covenant keys) in
    let tree :=
      {| internal_key := unspendableKeyPathKey;
         timeLockLeaf := NewLeafScript (TimeLock (staker keys) (timelock_blocks lock));
         unbondingLeaf := NewLeafScript (Unbonding (staker keys) cs (covenant_threshold keys));
         slashingLeaf :=
           NewLeafScript (Slashing (staker keys) vs cs (covenant_threshold keys)) |} in
    inr {| StakingOutput :=
             {| Wire.Value := staking_amount lock;
                Wire.PkScript := Taproot.PayToTaprootScript (fst (outputKey tree)) |};
           scriptTree := tree |}.

Definition GetPkScript (info : StakingInfo) : bytes := Wire.PkScript (StakingOutput info).

(** [GetOutputFetcher]: the staking output is the output being spent. *)
Definition GetOutputFetcher (info : StakingInfo) : Wire.TxOut := StakingOutput info.

(** Modelled from the spec: per-path lookup of the revealed leaf and its
    control block. *)
Definition TimeLockPathSpendInfo (info : StakingInfo) : SpendInfo :=
  let t := scriptTree info in
  {| leaf_script := timeLockLeaf t;
     control_block :=
       controlBlock t (leafHash (unbondingLeaf t) ++ leafHash (slashingLeaf t)) |}.

Definition UnbondingPathSpendInfo (info : StakingInfo) : SpendInfo :=
  let t := scriptTree info in
  {| leaf_script := unbondingLeaf t;
     control_block :=
       controlBlock t (leafHash (timeLockLeaf t) ++ leafHash (slashingLeaf t)) |}.

Definition SlashingPathSpendInfo (info : StakingInfo) : SpendInfo :=
  let t := scriptTree info in
  {| leaf_script := slashingLeaf t;
     control_block :=
       controlBlock t
         (Taproot.tapBranchHash (leafHash (timeLockLeaf t)) (leafHash (unbondingLeaf t))) |}.

(** Modelled from the spec: section 4.3, signing the single input of a
    transaction that spends the staking output through a leaf. *)
Definition SignTxWithOneScriptSpendInputFromTapLeaf (txToSign : Wire.MsgTx)
  (fundingOutput : Wire.TxOut) (privKey : PrivateKey) (tapLeaf : Taproot.TapLeaf)
  : CryptographicError + schnorr.Signature :=
  match Wire.MsgTx_TxIn txToSign with
  | [_] =>
      inr (SchnorrSign privKey
             (TaprootSigHash 0 (Wire.WithoutWitness txToSign) 0 fundingOutput
                (Some (Taproot.TapHash tapLeaf))))
  | _ => inl SighashComputationError
  end.
End Build.

(** ** Witness assembly *)

(** A signature slot: [nil] in the Go slice is [None]. *)
Definition SignatureSlot := option schnorr.Signature.

(** Modelled from the spec: the missing-signature rule, an absent
    signature is a zero-length witness element. *)
Definition slotElement (s : SignatureSlot) : bytes :=
  match s with
  | Some sig => schnorr.Serialize sig
  | None => []
  end.

(** Modelled from the spec: the witness stack
    [signature elements..., leaf_script, control_block]. *)
Definition CreateWitness (si : SpendInfo) (signatures : list bytes) : list bytes :=
  signatures
  ++ [Taproot.Script (RevealedLeaf (leaf_script si));
      Taproot.ControlBlock_ToBytes (control_block si)].

(** Modelled from the spec: section 4.4, the three witness assemblers
    ([CreateTimeLockPathWitness], [CreateUnbondingPathWitness] and
    [CreateSlashingPathWitness] are called by the tests but are not among
    the sources). *)
Definition CreateTimeLockPathWitness (si : SpendInfo) (stakerSig : schnorr.Signature)
  : WitnessAssemblyError + list bytes :=
  inr (CreateWitness si [schnorr.Serialize stakerSig]).

Definition CreateUnbondingPathWitness (si : SpendInfo) (covenantSigs : list SignatureSlot)
  (stakerSig : schnorr.Signature) : WitnessAssemblyError + list bytes :=
  let expected := length (covenantSlots (template (leaf_script si))) in
  if negb (length covenantSigs =? expected)%nat
  then inl (SignatureCountMismatch expected (length covenantSigs))
  else inr (CreateWitness si (map slotElement covenantSigs ++ [schnorr.Serialize stakerSig])).

Definition CreateSlashingPathWitness (si : SpendInfo) (covenantSigs : list SignatureSlot)
  (validatorSigs : list SignatureSlot) (stakerSig : schnorr.Signature)
  : WitnessAssemblyError + list bytes :=
  let expectedCovenant := length (covenantSlots (template (leaf_script si))) in
  let expectedValidators := length (validatorSlots (template (leaf_script si))) in
  if negb (length covenantSigs =? expectedCovenant)%nat
  then inl (SignatureCountMismatch expectedCovenant (length covenantSigs))
  else if negb (length validatorSigs =? expectedValidators)%nat
  then inl (SignatureCountMismatch expectedValidators (length validatorSigs))
  else inr (CreateWitness si (map slotElement covenantSigs ++ map slotElement validatorSigs
                              ++ [schnorr.Serialize stakerSig])).

End BtcStaking.

(* ===================================================================== *)
(** * Helpers of the test suite ([btcstaking_test]) *)
(* ===================================================================== *)

Module BtcStakingTest.

Import BtcStaking.

Section Helpers.
Context {P : Primitives}.

Record TestScenario := {
  StakerKey : PrivateKey;
  ValidatorKeys : list PrivateKey;
  CovenantKeys : list PrivateKey;
  RequiredCovenantSigs : Z;
  StakingAmount : Z;
  StakingTime : Z
}.

Definition CovenantPublicKeys (t : TestScenario) : list schnorr.PublicKey :=
  map PubKey (CovenantKeys t).

Definition ValidatorPublicKeys (t : TestScenario) : list schnorr.PublicKey :=
  map PubKey (ValidatorKeys t).

Record SignatureInfo := {
  SignerPubKey : schnorr.PublicKey;
  Signature : schnorr.Signature
}.

Definition NewSignatureInfo (signerPubKey : schnorr.PublicKey) (signature : schnorr.Signature)
  : SignatureInfo :=
  {| SignerPubKey := signerPubKey; Signature := signature |}.

(** The comparison of [sortSignatureInfo]:
    [bytes.Compare(keyIBytes, keyJBytes) == 1]. *)
Definition infoBefore (i j : SignatureInfo) : bool :=
  Bytes.Compare (schnorr.SerializePubKey (SignerPubKey i))
                (schnorr.SerializePubKey (SignerPubKey j)) =? 1.

(** Sort all signatures in reverse lexicographical order of the signing
    public keys (on a copy of the slice). *)
Definition sortSignatureInfo (infos : list SignatureInfo) : list SignatureInfo :=
  Sort.SliceStable infoBefore infos.

(** The loop of [GenerateSignatures]; [None] when a [require.NoError]
    stops the test. *)
Fixpoint signAll (keys : list PrivateKey) (tx : Wire.MsgTx) (stakingOutput : Wire.TxOut)
  (leaf : Taproot.TapLeaf) : option (list SignatureInfo) :=
  match keys with
  | [] => Some []
  | key :: rest =>
      match SignTxWithOneScriptSpendInputFromTapLeaf tx stakingOutput key leaf with
      | inl _ => None
      | inr sig =>
          option_map (cons (NewSignatureInfo (PubKey key) sig))
            (signAll rest tx stakingOutput leaf)
      end
  end.

(** Generate the list of signatures in valid order. The result is a slice
    of pointers, none of them [nil]. *)
Definition GenerateSignatures (keys : list PrivateKey) (tx : Wire.MsgTx)
  (stakingOutput : Wire.TxOut) (leaf : Taproot.TapLeaf) : option (list SignatureSlot) :=
  match signAll keys tx stakingOutput leaf with
  | None => None
  | Some si => Some (map (fun sigInfo => Some (Signature sigInfo)) (sortSignatureInfo si))
  end.

(** [for j := 0; j <= i; j++ { covenantSigantures[j] = nil }] *)
Fixpoint removeSignatures (count : nat) (sigs : list SignatureSlot) : list SignatureSlot :=
  match count, sigs with
  | O, _ => sigs
  | S c, _ :: rest => None :: removeSignatures c rest
  | S _, [] => []
  end.
End Helpers.

End BtcStakingTest.

(* ===================================================================== *)
(** * What the theorems speak about *)
(* ===================================================================== *)

Module Props.

Import BtcStaking.

Section Props.
Context {P : Primitives}.

(** The spend of the staking output under test: input [txIdx] of [tx]
    carries the witness [w]. *)
Definition Accepted (info : StakingInfo) (tx : Wire.MsgTx) (txIdx : nat) (w : list bytes)
  : bool :=
  Engine.Execute (GetPkScript info) (Wire.SetWitness txIdx w tx) txIdx
    (GetOutputFetcher info).

(** [sig] is a signature the interpreter accepts for [key] when input
    [txIdx] of [tx] spends the staking output through [leaf]. *)
Definition ValidSignature (info : StakingInfo) (tx : Wire.MsgTx) (txIdx : nat)
  (leaf : LeafScript) (key : schnorr.PublicKey) (sig : schnorr.Signature) : Prop :=
  Engine.checkSig tx txIdx (GetOutputFetcher info) (Some (leafHash leaf))
    (schnorr.SerializePubKey key) (schnorr.Serialize sig) = Some true.

(** A slot is well filled when it is empty or holds a valid signature of
    the key at its position. *)
Definition SlotValid (info : StakingInfo) (tx : Wire.MsgTx) (txIdx : nat)
  (leaf : LeafScript) (key : schnorr.PublicKey) (slot : SignatureSlot) : Prop :=
  match slot with
  | None => True
  | Some sig => ValidSignature info tx txIdx leaf key sig
  end.

Definition isPresent (slot : SignatureSlot) : bool :=
  match slot with Some _ => true | None => false end.

(** Number of present signatures of a slot list. *)
Definition present (slots : list SignatureSlot) : Z :=
  Z.of_nat (length (filter isPresent slots)).

(** The input under test exists and has an empty signature script, as
    every native witness spend must. *)
Definition SpendingInput (tx : Wire.MsgTx) (txIdx : nat) : Prop :=
  exists txIn, nth_error (Wire.MsgTx_TxIn tx) txIdx = Some txIn
               /\ Wire.SignatureScript txIn = [].

Definition sequenceOf (tx : Wire.MsgTx) (txIdx : nat) : Z :=
  match nth_error (Wire.MsgTx_TxIn tx) txIdx with
  | Some txIn => Wire.Sequence txIn
  | None => 0
  end.

(** Exchange the elements at positions [i] and [j]. *)
Definition swap {A} (i j : nat) (l : list A) : list A :=
  match nth_error l i, nth_error l j with
  | Some a, Some b => Wire.update_nth j (fun _ => a) (Wire.update_nth i (fun _ => b) l)
  | _, _ => l
  end.
End Props.

End Props.

(* ===================================================================== *)
(** * A small instance of the primitives *)
(* ===================================================================== *)

(** Stand-ins that compute, used to run the definitions on concrete
    scenarios. They have no cryptographic strength: a key pair is a
    32-byte string used on both sides, and a signature is the key followed
    by the first 32 bytes of the message. *)
Module Toy.

Definition checksum (b : bytes) : Z :=
  fold_left (fun acc x => (acc * 257 + byte.unsigned x + 1) mod 2 ^ 256) b 7.

Definition pad32 (b : bytes) : bytes := firstn 32 (b ++ repeat Byte.x00 32).

Definition sign (sk : bytes) (msg : bytes) : bytes := sk ++ pad32 msg.

Definition sigHashOf (hashType : Z) (tx : Wire.MsgTx) (txIdx : nat) (prevOut : Wire.TxOut)
  (leaf : option bytes) : bytes :=
  hash32 (checksum
            (Bytes.le 1 hashType ++ Bytes.le 4 (Wire.Version tx)
             ++ flat_map (fun i => Bytes.le 4 (Wire.Sequence i)) (Wire.MsgTx_TxIn tx)
             ++ Bytes.le 4 (Z.of_nat txIdx) ++ Bytes.le 8 (Wire.Value prevOut)
             ++ Wire.PkScript prevOut
             ++ match leaf with Some h => h | None => [] end)).

#[local] Instance primitives : Primitives := {|
  TaggedHash tag msg := checksum (tag ++ Byte.x00 :: msg);
  ComputeTaprootOutputKey internalKey root :=
    (checksum (internalKey ++ root), Z.odd (checksum root));
  TaprootSigHash := sigHashOf;
  SchnorrVerify pk msg sig := Bytes.eqb sig (sign pk msg);
  PrivateKey := bytes;
  PubKey sk := sk;
  SchnorrSign := sign
|}.

(** Keys of the scenarios: 32 bytes, all equal to [n]. *)
Definition key (n : Z) : bytes := repeat (byte.of_Z n) 32.

End Toy.

(* ===================================================================== *)
(** * The transaction commands ([x/btcstaking/client/cli]) *)
(* ===================================================================== *)

Module CliCommands.

Import Cli.

Section Commands.
(** Errors and values of the libraries the commands call. *)
Variable Error : Type.
Variables ClientCtx Secp256k1PubKey BIP340PubKey ProofOfPossession : Type.
Variables TransactionInfo BTCSlashingTx BIP340Signature AdaptorSignature : Type.

(** What a command can return: an error of a library, an error made with
    [fmt.Errorf] from a text, a library error wrapped with [%w] behind a
    prefix, or cobra's complaint about the number of arguments. *)
Inductive CmdError :=
| Lib (e : Error)
| Message (text : string)
| Wrap (prefix : string) (e : Error)
| ArgCount (required received : nat).

(** A step of [RunE]: [None] is a panic, [Some (inl e)] is [return e],
    [Some (inr a)] goes on with [a]. *)
Definition step (A : Type) := option (CmdError + A).

Definition ret {A} (a : A) : step A := Some (inr a).
Definition fail {A} (e : CmdError) : step A := Some (inl e).

Definition bind {A B} (m : step A) (k : A -> step B) : step B :=
  match m with
  | None => None
  | Some (inl e) => Some (inl e)
  | Some (inr a) => k a
  end.

Notation "x <- m ;; k" := (bind m (fun x => k))
  (at level 61, m at next level, right associativity).

(** [v, err := f(...); if err != nil { return err }] *)
Definition check {A} (r : Error + A) : step A :=
  match r with
  | inl e => fail (Lib e)
  | inr a => ret a
  end.

(** [if err != nil { return fmt.Errorf(prefix + "%w", err) }] *)
Definition checkWrapped {A} (prefix : string) (r : Error + A) : step A :=
  match r with
  | inl e => fail (Wrap prefix e)
  | inr a => ret a
  end.

(** The same for [parseLockTime] and [parseBtcAmount], whose errors are
    texts. *)
Definition checkParsed (r : option result) : step Z :=
  match r with
  | None => None
  | Some (_, Some text) => fail (Message text)
  | Some (v, None) => ret v
  end.

(** [args[i]]; indexing past the end panics. *)
Definition arg (args : list string) (i : nat) : step string :=
  match nth_error args i with
  | Some s => ret s
  | None => None
  end.

(** The library calls. *)
Variable GetClientTxContext : Error + ClientCtx.
Variable FromAddress_String : ClientCtx -> string.
Variable hex_DecodeString : string -> Error + bytes.
Variable Secp256k1PubKey_Unmarshal : bytes -> Error + Secp256k1PubKey.
Variable NewBIP340PubKeyFromHex : string -> Error + BIP340PubKey.
Variable NewPoPFromHex : string -> Error + ProofOfPossession.
Variable NewTransactionInfoFromHex : string -> Error + TransactionInfo.
Variable NewBTCSlashingTxFromHex : string -> Error + BTCSlashingTx.
Variable NewBIP340SignatureFromHex : string -> Error + BIP340Signature.
Variable NewAdaptorSignatureFromHex : string -> Error + AdaptorSignature.
(** [bbn.NewBTCTxFromHex]: the transaction and its bytes; only the bytes
    are used. *)
Variable NewBTCTxFromHex_bytes : string -> Error + bytes.
(** [MustMarshal] panics when marshalling fails. *)
Variable MustMarshal : AdaptorSignature -> option bytes.
Variable NewIntFromString : string -> option Int.

(** The Go conversions [uint32(x)] of a [uint16] and [int64(x)] of a
    [btcutil.Amount] (an [int64]). *)
Definition uint32_of_uint16 (x : Z) : Z := x mod 2 ^ 32.
Definition int64_of_Amount (x : Z) : Z := x.

Record MsgCreateBTCDelegation := {
  D_Signer : string;
  D_BabylonPk : Secp256k1PubKey;
  D_BtcPk : BIP340PubKey;
  D_ValBtcPkList : list BIP340PubKey;
  D_Pop : ProofOfPossession;
  D_StakingTime : Z;
  D_StakingValue : Z;
  D_StakingTx : TransactionInfo;
  D_SlashingTx : BTCSlashingTx;
  D_DelegatorSig : BIP340Signature
}.

Record MsgAddCovenantSig := {
  S_Signer : string;
  S_Pk : BIP340PubKey;
  S_StakingTxHash : string;
  S_Sigs : list bytes
}.

Record MsgBTCUndelegate := {
  U_Signer : string;
  U_UnbondingTx : bytes;
  U_UnbondingTime : Z;
  U_UnbondingValue : Z;
  U_SlashingTx : BTCSlashingTx;
  U_DelegatorSlashingSig : BIP340Signature
}.

Record MsgAddCovenantUnbondingSigs := {
  C_Signer : string;
  C_Pk : BIP340PubKey;
  C_StakingTxHash : string;
  C_UnbondingTxSig : BIP340Signature;
  C_SlashingUnbondingTxSigs : list bytes
}.

(** [RunE] ends with [return tx.GenerateOrBroadcastTxCLI(clientCtx, flags, &msg)]:
    a run that gets there yields the context and the message handed over. *)
Definition CreateBTCDelegation_RunE (args : list string)
  : step (ClientCtx * MsgCreateBTCDelegation) :=
  clientCtx <- check GetClientTxContext ;;
  a0 <- arg args 0 ;;
  babylonPKBytes <- check (hex_DecodeString a0) ;;
  babylonPK <- check (Secp256k1PubKey_Unmarshal babylonPKBytes) ;;
  a1 <- arg args 1 ;;
  btcPK <- check (NewBIP340PubKeyFromHex a1) ;;
  a2 <- arg args 2 ;;
  pop <- check (NewPoPFromHex a2) ;;
  a3 <- arg args 3 ;;
  stakingTxInfo <- check (NewTransactionInfoFromHex a3) ;;
  a4 <- arg args 4 ;;
  valPK <- check (NewBIP340PubKeyFromHex a4) ;;
  a5 <- arg args 5 ;;
  stakingTime <- checkParsed (parseLockTime NewIntFromString a5) ;;
  a6 <- arg args 6 ;;
  stakingValue <- checkParsed (parseBtcAmount NewIntFromString a6) ;;
  a7 <- arg args 7 ;;
  slashingTx <- check (NewBTCSlashingTxFromHex a7) ;;
  a8 <- arg args 8 ;;
  delegatorSig <- check (NewBIP340SignatureFromHex a8) ;;
  ret (clientCtx,
       {| D_Signer := FromAddress_String clientCtx;
          D_BabylonPk := babylonPK;
          D_BtcPk := btcPK;
          D_ValBtcPkList := [valPK];
          D_Pop := pop;
          D_StakingTime := uint32_of_uint16 stakingTime;
          D_StakingValue := int64_of_Amount stakingValue;
          D_StakingTx := stakingTxInfo;
          D_SlashingTx := slashingTx;
          D_DelegatorSig := delegatorSig |}).

(** [for _, sigHex := range rest { sig, err := NewAdaptorSignatureFromHex(sigHex);
    if err != nil { return fmt.Errorf("invalid covenant signature: %w", err) };
    sigs = append(sigs, sig.MustMarshal()) }] *)
Fixpoint marshalAdaptorSigs (rest : list string) : step (list bytes) :=
  match rest with
  | [] => ret []
  | sigHex :: more =>
      sig <- checkWrapped "invalid covenant signature: " (NewAdaptorSignatureFromHex sigHex) ;;
      match MustMarshal sig with
      | None => None
      | Some b => sigs <- marshalAdaptorSigs more ;; ret (b :: sigs)
      end
  end.

(** [b] is what the loop appends for [sigHex]: the marshalled adaptor
    signature read from it. *)
Definition marshalled (sigHex : string) (b : bytes) : Prop :=
  exists sig, NewAdaptorSignatureFromHex sigHex = inr sig /\ MustMarshal sig = Some b.

(** [args[n:]]; slicing past the end panics. *)
Definition argsFrom (args : list string) (n : nat) : step (list string) :=
  if (length args <? n)%nat then None else ret (skipn n args).

Definition AddCovenantSig_RunE (args : list string) : step (ClientCtx * MsgAddCovenantSig) :=
  clientCtx <- check GetClientTxContext ;;
  a0 <- arg args 0 ;;
  covPK <- checkWrapped "invalid public key: " (NewBIP340PubKeyFromHex a0) ;;
  stakingTxHash <- arg args 1 ;;
  rest <- argsFrom args 2 ;;
  sigs <- marshalAdaptorSigs rest ;;
  ret (clientCtx,
       {| S_Signer := FromAddress_String clientCtx;
          S_Pk := covPK;
          S_StakingTxHash := stakingTxHash;
          S_Sigs := sigs |}).

Definition CreateBTCUndelegation_RunE (args : list string)
  : step (ClientCtx * MsgBTCUndelegate) :=
  clientCtx <- check GetClientTxContext ;;
  a0 <- arg args 0 ;;
  unbondingTxBytes <- check (NewBTCTxFromHex_bytes a0) ;;
  a1 <- arg args 1 ;;
  slashingTx <- check (NewBTCSlashingTxFromHex a1) ;;
  a2 <- arg args 2 ;;
  unbondingTime <- checkParsed (parseLockTime NewIntFromString a2) ;;
  a3 <- arg args 3 ;;
  unbondingValue <- checkParsed (parseBtcAmount NewIntFromString a3) ;;
  a4 <- arg args 4 ;;
  delegatorSig <- check (NewBIP340SignatureFromHex a4) ;;
  ret (clientCtx,
       {| U_Signer := FromAddress_String clientCtx;
          U_UnbondingTx := unbondingTxBytes;
          U_UnbondingTime := uint32_of_uint16 unbondingTime;
          U_UnbondingValue := int64_of_Amount unbondingValue;
          U_SlashingTx := slashingTx;
          U_DelegatorSlashingSig := delegatorSig |}).

Definition AddCovenantUnbondingSigs_RunE (args : list string)
  : step (ClientCtx * MsgAddCovenantUnbondingSigs) :=
  clientCtx <- check GetClientTxContext ;;
  a0 <- arg args 0 ;;
  covPK <- check (NewBIP340PubKeyFromHex a0) ;;
  stakingTxHash <- arg args 1 ;;
  a2 <- arg args 2 ;;
  unbondingSig <- check (NewBIP340SignatureFromHex a2) ;;
  rest <- argsFrom args 3 ;;
  slashingSigs <- marshalAdaptorSigs rest ;;
  ret (clientCtx,
       {| C_Signer := FromAddress_String clientCtx;
          C_Pk := covPK;
          C_StakingTxHash := stakingTxHash;
          C_UnbondingTxSig := unbondingSig;
          C_SlashingUnbondingTxSigs := slashingSigs |}).

(** ** [create-btc-validator] and its flags *)

Definition FlagMoniker : string := "moniker".
Definition FlagIdentity : string := "identity".
Definition FlagWebsite : string := "website".
Definition FlagSecurityContact : string := "security-contact".
Definition FlagDetails : string := "details".
Definition FlagCommissionRate : string := "commission-rate".

(** The string flags the command registers with [fs.String(name, default, usage)],
    in the order of the source. *)
Definition validatorFlags : list (string * string) :=
  [(FlagMoniker, ""); (FlagWebsite, ""); (FlagSecurityContact, "");
   (FlagDetails, ""); (FlagIdentity, ""); (FlagCommissionRate, "0")]%string.

Fixpoint flagDefault (flags : list (string * string)) (name : string) : option string :=
  match flags with
  | [] => None
  | (n, d) :: rest => if String.eqb n name then Some d else flagDefault rest name
  end.

(** [v, _ := fs.GetString(name)]: the value given on the command line, else
    the registered default; for a flag that was never registered the call
    errs and the value is empty. The error is dropped by the caller. *)
Definition GetString (given : string -> option string) (name : string) : string :=
  match flagDefault validatorFlags name with
  | None => ""%string
  | Some d => match given name with Some v => v | None => d end
  end.

Variables Description Dec : Type.
(** [stakingtypes.NewDescription(moniker, identity, website, security, details)] *)
Variable NewDescription : string -> string -> string -> string -> string -> Description.
Variable LegacyNewDecFromStr : string -> Error + Dec.

Record MsgCreateBTCValidator := {
  V_Signer : string;
  V_Description : Description;
  V_Commission : Dec;
  V_BabylonPk : Secp256k1PubKey;
  V_BtcPk : BIP340PubKey;
  V_Pop : ProofOfPossession
}.

Definition CreateBTCValidator_RunE (given : string -> option string) (args : list string)
  : step (ClientCtx * MsgCreateBTCValidator) :=
  clientCtx <- check GetClientTxContext ;;
  let moniker := GetString given FlagMoniker in
  let identity := GetString given FlagIdentity in
  let website := GetString given FlagWebsite in
  let security := GetString given FlagSecurityContact in
  let details := GetString given FlagDetails in
  let description := NewDescription moniker identity website security details in
  let rateStr := GetString given FlagCommissionRate in
  rate <- check (LegacyNewDecFromStr rateStr) ;;
  a0 <- arg args 0 ;;
  babylonPKBytes <- check (hex_DecodeString a0) ;;
  babylonPK <- check (Secp256k1PubKey_Unmarshal babylonPKBytes) ;;
  a1 <- arg args 1 ;;
  btcPK <- check (NewBIP340PubKeyFromHex a1) ;;
  a2 <- arg args 2 ;;
  pop <- check (NewPoPFromHex a2) ;;
  ret (clientCtx,
       {| V_Signer := FromAddress_String clientCtx;
          V_Description := description;
          V_Commission := rate;
          V_BabylonPk := babylonPK;
          V_BtcPk := btcPK;
          V_Pop := pop |}).

(** ** Argument-count validators ([cobra.ExactArgs], [cobra.MinimumNArgs]) *)

Definition ExactArgs (n : nat) (args : list string) : option CmdError :=
  if (length args =? n)%nat then None else Some (ArgCount n (length args)).

Definition MinimumNArgs (n : nat) (args : list string) : option CmdError :=
  if (length args <? n)%nat then Some (ArgCount n (length args)) else None.

(** A command runs its [Args] validator, then [RunE]. *)
Definition execute {A} (Args : list string -> option CmdError)
  (RunE : list string -> step A) (args : list string) : step A :=
  match Args args with
  | Some e => fail e
  | None => RunE args
  end.

Definition NewCreateBTCValidatorCmd (given : string -> option string) :=
  execute (ExactArgs 3) (CreateBTCValidator_RunE given).
Definition NewCreateBTCDelegationCmd := execute (ExactArgs 9) CreateBTCDelegation_RunE.
Definition NewAddCovenantSigCmd := execute (MinimumNArgs 3) AddCovenantSig_RunE.
Definition NewCreateBTCUndelegationCmd := execute (ExactArgs 5) CreateBTCUndelegation_RunE.
Definition NewAddCovenantUnbondingSigsCmd :=
  execute (MinimumNArgs 4) AddCovenantUnbondingSigs_RunE.
End Commands.

Arguments Lib {Error} _.
Arguments Message {Error} _.
Arguments Wrap {Error} _ _.
Arguments ArgCount {Error} _ _.
Arguments D_Signer {_ _ _ _ _ _} _.
Arguments D_ValBtcPkList {_ _ _ _ _ _} _.
Arguments D_StakingTime {_ _ _ _ _ _} _.
Arguments D_StakingValue {_ _ _ _ _ _} _.
Arguments S_Signer {_} _.
Arguments S_Pk {_} _.
Arguments S_StakingTxHash {_} _.
Arguments S_Sigs {_} _.
Arguments U_Signer {_ _} _.
Arguments U_UnbondingTime {_ _} _.
Arguments U_UnbondingValue {_ _} _.
Arguments C_Signer {_ _} _.
Arguments C_StakingTxHash {_ _} _.
Arguments C_SlashingUnbondingTxSigs {_ _} _.
Arguments NewCreateBTCDelegationCmd {_ _ _ _ _ _ _ _} _ _ _ _ _ _ _ _ _ _ _.
Arguments NewAddCovenantSigCmd {_ _ _ _} _ _ _ _ _ _.
Arguments NewCreateBTCUndelegationCmd {_ _ _ _} _ _ _ _ _ _ _.
Arguments NewAddCovenantUnbondingSigsCmd {_ _ _ _ _} _ _ _ _ _ _ _.
Arguments marshalAdaptorSigs {_ _} _ _ _.
Arguments marshalled {_ _} _ _ _ _.
Arguments V_Signer {_ _ _ _ _} _.
Arguments V_Description {_ _ _ _ _} _.
Arguments V_Commission {_ _ _ _ _} _.
Arguments NewCreateBTCValidatorCmd {_ _ _ _ _} _ _ _ _ _ _ {_ _} _ _ _ _.

End CliCommands.

(* ===================================================================== *)
(** * Test scenarios ([GenerateTestScenario]) *)
(* ===================================================================== *)

Module ScenarioGen.

Import BtcStakingTest.

Section Gen.
Context {P : Primitives}.
(** The state of the system random source read by [btcec.NewPrivateKey];
    [None] is the error case, on which [require.NoError] stops the test. *)
Variable Entropy : Type.
Variable NewPrivateKey : Entropy -> option PrivateKey * Entropy.

(** [keys := make([]*btcec.PrivateKey, n); for i := uint32(0); i < n; i++ {
    key, err := btcec.NewPrivateKey(); require.NoError(t, err); keys[i] = key }] *)
Fixpoint generateKeys (n : nat) (e : Entropy) : option (list PrivateKey) * Entropy :=
  match n with
  | O => (Some [], e)
  | S n' =>
      match NewPrivateKey e with
      | (None, e') => (None, e')
      | (Some key, e') =>
          match generateKeys n' e' with
          | (Some keys, e'') => (Some (key :: keys), e'')
          | (None, e'') => (None, e'')
          end
      end
  end.

(** The arguments [r] and [t] are left out: [r] is not used by the
    function, and [t] only carries the failure, which is [None] here. *)
Definition GenerateTestScenario (numValidatorKeys numCovenantKeys : nat)
  (requiredCovenantSigs stakingAmount stakingTime : Z) (e : Entropy)
  : option TestScenario * Entropy :=
  match NewPrivateKey e with
  | (None, e1) => (None, e1)
  | (Some stakerPrivKey, e1) =>
      match generateKeys numValidatorKeys e1 with
      | (None, e2) => (None, e2)
      | (Some validatorKeys, e2) =>
          match generateKeys numCovenantKeys e2 with
          | (None, e3) => (None, e3)
          | (Some covenantKeys, e3) =>
              (Some {| StakerKey := stakerPrivKey;
                       ValidatorKeys := validatorKeys;
                       CovenantKeys := covenantKeys;
                       RequiredCovenantSigs := requiredCovenantSigs;
                       StakingAmount := stakingAmount;
                       StakingTime := stakingTime |}, e3)
          end
      end
  end.
End Gen.

End ScenarioGen.

(* ===================================================================== *)
(** * Sample inputs *)
(* ===================================================================== *)

(** Stand-ins for the library calls of the commands and concrete inputs,
    used to run the definitions: a library parser accepts every string but
    one, and a value is the text it was read from. *)
Module Sample.

Definition clientCtx : string + string := inr "bbn1sender"%string.
Definition fromAddress (ctx : string) : string := ctx.

Definition unless (bad : string) (s : string) : string + string :=
  if String.eqb s bad then inl ("cannot read: " ++ s)%string else inr s.

Definition hexDecode (s : string) : string + bytes :=
  if String.eqb s "zz" then inl "invalid byte"%string else inr (Bytes.of_string s).

Definition unmarshal (b : bytes) : string + bytes := inr b.
Definition mustMarshal (sig : string) : option bytes := Some (Bytes.of_string sig).

Definition newDescription (moniker identity website security details : string) : list string :=
  [moniker; identity; website; security; details].

Definition delegationArgs : list string :=
  ["02ab"; "btcpk"; "pop"; "stakingtx"; "valpk"; "5"; "2000000000"; "slashingtx"; "sig"]%string.

Definition undelegationArgs : list string :=
  ["unbondingtx"; "slashingtx"; "65535"; "0"; "sig"]%string.

Definition covenantSigArgs : list string := ["covpk"; "txhash"; "s1"; "s2"; "s3"]%string.
Definition covenantSigArgsBad : list string := ["covpk"; "txhash"; "s1"; "zz"; "s3"]%string.
Definition unbondingSigsArgs : list string := ["covpk"; "txhash"; "usig"; "s1"; "s2"]%string.
Definition validatorArgs : list string := ["02ab"; "btcpk"; "pop"]%string.

(** Only [--moniker] is given on the command line. *)
Definition onlyMoniker (name : string) : option string :=
  if String.eqb name "moniker" then Some "alice"%string else None.

(** A random source that hands out the keys 1, 2, 3, ... *)
Definition nextKey (e : Z) : option bytes * Z := (Some (Toy.key e), e + 1).

Definition spendTx : Wire.MsgTx :=
  Wire.AddTxIn (Wire.NewTxIn {| Wire.Hash := []; Wire.Index := 0 |} [] []) (Wire.NewMsgTx 2).
Definition stakingOutput : Wire.TxOut := {| Wire.Value := 2000000000; Wire.PkScript := [] |}.
Definition leaf : Taproot.TapLeaf :=
  {| Taproot.LeafVersion := Taproot.BaseLeafVersion; Taproot.Script := [] |}.
Definition signingKeys : list bytes := [Toy.key 3; Toy.key 1; Toy.key 2].

Definition generatedSigs : list BtcStaking.SignatureSlot :=
  match BtcStakingTest.GenerateSignatures (P := Toy.primitives) signingKeys spendTx
          stakingOutput leaf with
  | Some sigs => sigs
  | None => []
  end.

Definition threeSlots : list BtcStaking.SignatureSlot :=
  [Some (Toy.key 1); Some (Toy.key 2); Some (Toy.key 3)].

Definition infosUnsorted : list BtcStakingTest.SignatureInfo :=
  [BtcStakingTest.NewSignatureInfo (Toy.key 1) (Toy.key 11);
   BtcStakingTest.NewSignatureInfo (Toy.key 2) (Toy.key 12);
   BtcStakingTest.NewSignatureInfo (Toy.key 1) (Toy.key 13)].

Definition infosSorted : list BtcStakingTest.SignatureInfo :=
  [BtcStakingTest.NewSignatureInfo (Toy.key 2) (Toy.key 12);
   BtcStakingTest.NewSignatureInfo (Toy.key 1) (Toy.key 11);
   BtcStakingTest.NewSignatureInfo (Toy.key 1) (Toy.key 13)].

End Sample.

(* ===================================================================== *)
(** * Theorems: epoching hooks *)
(* ===================================================================== *)

Module EpochingFacts.

Import Epoching.

Section RunHooks.
Variables (Store Error : Type).
Variable method : EpochingHooks Store Error -> Hook Store Error.
Variable methodL : EpochingHooks (Store * list nat) Error -> Hook (Store * list nat) Error.
Hypothesis methodL_logged :
  forall i hi, methodL (logged Store Error i hi) = logged_method Store Error i (method hi).

Lemma run_hooks_first_error (h : MultiEpochingHooks Store Error) epoch :
  forall ctx i hi ctx_i err ctx',
    nth_error h i = Some hi ->
    run_hooks method (firstn i h) epoch ctx = (None, ctx_i) ->
    method hi epoch ctx_i = (Some err, ctx') ->
    run_hooks method h epoch ctx = (Some err, ctx').
Proof.
  induction h as [|h0 rest IH]; intros ctx i hi ctx_i err ctx' Hnth Hpre Hfail.
  - destruct i; discriminate.
  - destruct i as [|i]; simpl in *.
    + injection Hnth as ->. injection Hpre as ->. now rewrite Hfail.
    + destruct (method h0 epoch ctx) as [[e|] c]; [discriminate|].
      eapply IH; eauto.
Qed.

Lemma run_logged_first_error (h : MultiEpochingHooks Store Error) epoch :
  forall from ctx log i hi ctx_i err ctx',
    nth_error h i = Some hi ->
    run_hooks method (firstn i h) epoch ctx = (None, ctx_i) ->
    method hi epoch ctx_i = (Some err, ctx') ->
    run_hooks methodL (logged_from from h) epoch (ctx, log)
    = (Some err, (ctx', log ++ seq from (S i))).
Proof.
  induction h as [|h0 rest IH]; intros from ctx log i hi ctx_i err ctx' Hnth Hpre Hfail.
  - destruct i; discriminate.
  - destruct i as [|i]; simpl in Hnth, Hpre; cbn [logged_from run_hooks].
    + injection Hnth as ->. injection Hpre as ->.
      rewrite methodL_logged. unfold logged_method. now rewrite Hfail.
    + rewrite methodL_logged. unfold logged_method.
      destruct (method h0 epoch ctx) as [[e|] c]; [discriminate|].
      erewrite IH by eauto.
      now rewrite <- app_assoc.
Qed.

Lemma run_hooks_all_succeed (h : MultiEpochingHooks Store Error) epoch :
  forall from ctx log,
    (forall i hi ctx_i,
        nth_error h i = Some hi ->
        run_hooks method (firstn i h) epoch ctx = (None, ctx_i) ->
        fst (method hi epoch ctx_i) = None) ->
    exists ctx',
      run_hooks method h epoch ctx = (None, ctx')
      /\ run_hooks methodL (logged_from from h) epoch (ctx, log)
         = (None, (ctx', log ++ seq from (length h))).
Proof.
  induction h as [|h0 rest IH]; intros from ctx log Hall.
  - exists ctx. simpl. now rewrite app_nil_r.
  - cbn [logged_from run_hooks]. rewrite methodL_logged. unfold logged_method.
    pose proof (Hall 0%nat h0 ctx eq_refl eq_refl) as H0.
    destruct (method h0 epoch ctx) as [[e|] c] eqn:E0; [discriminate|].
    destruct (IH (S from) c (log ++ [from])) as [ctx' [Hr Hl]].
    { intros i hi ctx_i Hnth Hpre. apply (Hall (S i) hi ctx_i Hnth).
      simpl. now rewrite E0. }
    exists ctx'. split; [exact Hr|].
    rewrite Hl. simpl. now rewrite <- app_assoc.
Qed.
End RunHooks.

Lemma Multi_AfterEpochBegins_run {Store Error} (h : MultiEpochingHooks Store Error) epoch ctx :
  Multi_AfterEpochBegins h epoch ctx = run_hooks AfterEpochBegins h epoch ctx.
Proof.
  revert ctx; induction h as [|hi rest IH]; intros ctx; simpl; [reflexivity|].
  destruct (AfterEpochBegins hi epoch ctx) as [[err|] ctx']; auto.
Qed.

Lemma Multi_AfterEpochEnds_run {Store Error} (h : MultiEpochingHooks Store Error) epoch ctx :
  Multi_AfterEpochEnds h epoch ctx = run_hooks AfterEpochEnds h epoch ctx.
Proof.
  revert ctx; induction h as [|hi rest IH]; intros ctx; simpl; [reflexivity|].
  destruct (AfterEpochEnds hi epoch ctx) as [[err|] ctx']; auto.
Qed.

(** C10. [MultiEpochingHooks.AfterEpochBegins] and
    [MultiEpochingHooks.AfterEpochEnds] call the hooks in array order and
    stop at the first failure. If hook [i] returns an error after hooks
    [0 .. i-1] returned [nil], that error and the store it left are the
    result, and the hooks that recorded a call are exactly [0 .. i] in that
    order: no later hook ran. If every hook returns [nil], the result is
    [nil] and the recorded calls are all the hooks in order. *)
Theorem MultiEpochingHooks_sequence_short_circuit
  {Store Error : Type} (h : MultiEpochingHooks Store Error) (epoch : Uint) (ctx : Store) :
  (forall i hi ctx_i err ctx',
      nth_error h i = Some hi ->
      Multi_AfterEpochBegins (firstn i h) epoch ctx = (None, ctx_i) ->
      AfterEpochBegins hi epoch ctx_i = (Some err, ctx') ->
      Multi_AfterEpochBegins h epoch ctx = (Some err, ctx')
      /\ Multi_AfterEpochBegins (logged_hooks h) epoch (ctx, [])
         = (Some err, (ctx', seq 0 (S i))))
  /\ ((forall i hi ctx_i,
          nth_error h i = Some hi ->
          Multi_AfterEpochBegins (firstn i h) epoch ctx = (None, ctx_i) ->
          fst (AfterEpochBegins hi epoch ctx_i) = None) ->
      exists ctx',
        Multi_AfterEpochBegins h epoch ctx = (None, ctx')
        /\ Multi_AfterEpochBegins (logged_hooks h) epoch (ctx, [])
           = (None, (ctx', seq 0 (length h))))
  /\ (forall i hi ctx_i err ctx',
      nth_error h i = Some hi ->
      Multi_AfterEpochEnds (firstn i h) epoch ctx = (None, ctx_i) ->
      AfterEpochEnds hi epoch ctx_i = (Some err, ctx') ->
      Multi_AfterEpochEnds h epoch ctx = (Some err, ctx')
      /\ Multi_AfterEpochEnds (logged_hooks h) epoch (ctx, [])
         = (Some err, (ctx', seq 0 (S i))))
  /\ ((forall i hi ctx_i,
          nth_error h i = Some hi ->
          Multi_AfterEpochEnds (firstn i h) epoch ctx = (None, ctx_i) ->
          fst (AfterEpochEnds hi epoch ctx_i) = None) ->
      exists ctx',
        Multi_AfterEpochEnds h epoch ctx = (None, ctx')
        /\ Multi_AfterEpochEnds (logged_hooks h) epoch (ctx, [])
           = (None, (ctx', seq 0 (length h)))).
Proof.
  split; [|split; [|split]].
  - intros i hi ctx_i err ctx' Hn Hp Hf.
    rewrite Multi_AfterEpochBegins_run in Hp. rewrite !Multi_AfterEpochBegins_run. split.
    + eapply (run_hooks_first_error Store Error AfterEpochBegins); eauto.
    + unfold logged_hooks.
      apply (run_logged_first_error Store Error AfterEpochBegins AfterEpochBegins
               (fun _ _ => eq_refl) h epoch 0%nat ctx [] i hi ctx_i err ctx' Hn Hp Hf).
  - intros Hall.
    destruct (run_hooks_all_succeed Store Error AfterEpochBegins AfterEpochBegins
                (fun _ _ => eq_refl) h epoch 0%nat ctx []) as [ctx' [Hr Hl]].
    { intros i hi ctx_i Hn Hp. apply (Hall i hi ctx_i Hn).
      now rewrite Multi_AfterEpochBegins_run. }
    exists ctx'. now rewrite !Multi_AfterEpochBegins_run.
  - intros i hi ctx_i err ctx' Hn Hp Hf.
    rewrite Multi_AfterEpochEnds_run in Hp. rewrite !Multi_AfterEpochEnds_run. split.
    + eapply (run_hooks_first_error Store Error AfterEpochEnds); eauto.
    + unfold logged_hooks.
      apply (run_logged_first_error Store Error AfterEpochEnds AfterEpochEnds
               (fun _ _ => eq_refl) h epoch 0%nat ctx [] i hi ctx_i err ctx' Hn Hp Hf).
  - intros Hall.
    destruct (run_hooks_all_succeed Store Error AfterEpochEnds AfterEpochEnds
                (fun _ _ => eq_refl) h epoch 0%nat ctx []) as [ctx' [Hr Hl]].
    { intros i hi ctx_i Hn Hp. apply (Hall i hi ctx_i Hn).
      now rewrite Multi_AfterEpochEnds_run. }
    exists ctx'. now rewrite !Multi_AfterEpochEnds_run.
Qed.

(** Three hooks over a counter: the first adds the epoch, the second fails
    after adding 100, the third would add 1000. *)
Definition sample_hooks : MultiEpochingHooks Z string :=
  [ {| AfterEpochBegins := fun e s => (None, s + Z.of_N e);
       AfterEpochEnds := fun e s => (None, s - Z.of_N e) |};
    {| AfterEpochBegins := fun _ s => (Some "second hook failed"%string, s + 100);
       AfterEpochEnds := fun _ s => (None, s) |};
    {| AfterEpochBegins := fun _ s => (None, s + 1000);
       AfterEpochEnds := fun _ s => (Some "third hook failed"%string, s + 1) |} ].

Lemma MultiEpochingHooks_sequence_short_circuit_witness :
  Multi_AfterEpochBegins sample_hooks 7%N 0 = (Some "second hook failed"%string, 107)
  /\ Multi_AfterEpochBegins (logged_hooks sample_hooks) 7%N (0, [])
     = (Some "second hook failed"%string, (107, [0; 1]%nat)).
Proof.
  refine (proj1 (MultiEpochingHooks_sequence_short_circuit sample_hooks 7%N 0)
            1%nat _ 7 _ 107 eq_refl eq_refl eq_refl).
Defined.

End EpochingFacts.

(* ===================================================================== *)
(** * Theorems: CLI argument parsing *)
(* ===================================================================== *)

Module CliFacts.

Import Cli.

Lemma uint16_of_small n : 0 <= n <= MaxUint16 -> uint16_of_uint64 n = n.
Proof. unfold MaxUint16, uint16_of_uint64. intros H. apply Z.mod_small. lia. Qed.

Lemma IsUint64_spec n : IsUint64 n = true <-> 0 <= n < 2 ^ 64.
Proof. unfold IsUint64. rewrite andb_true_iff, Z.leb_le, Z.ltb_lt. tauto. Qed.

Lemma IsInt64_spec n : IsInt64 n = true <-> - 2 ^ 63 <= n < 2 ^ 63.
Proof. unfold IsInt64. rewrite andb_true_iff, Z.leb_le, Z.ltb_lt. tauto. Qed.

(** The four outcomes of [parseLockTime], by what the string parses to. *)
Lemma parseLockTime_cases (NewIntFromString : string -> option Int) (str : string) :
  match NewIntFromString str with
  | None =>
      parseLockTime NewIntFromString str
      = Some (0, Some ("invalid staking time: " ++ str)%string)
  | Some n =>
      if negb (IsUint64 n)
      then parseLockTime NewIntFromString str
           = Some (0, Some "staking time is not valid uint"%string)
      else if MaxUint16 <? n
      then parseLockTime NewIntFromString str
           = Some (0, Some "staking time is too large. Max is 65535"%string)
      else parseLockTime NewIntFromString str = Some (n, None)
  end.
Proof.
  unfold parseLockTime, Uint64.
  destruct (NewIntFromString str) as [n|]; [|reflexivity].
  destruct (IsUint64 n) eqn:Eu; simpl; [|reflexivity].
  destruct (MaxUint16 <? n) eqn:Em; [reflexivity|].
  apply IsUint64_spec in Eu. apply Z.ltb_ge in Em.
  rewrite uint16_of_small by lia. reflexivity.
Qed.

(** C8. [parseLockTime] returns a value without error exactly when the
    string parses (by [NewIntFromString]) to an integer between 0 and
    65535, and then the value is that integer. It never panics. A string
    that does not parse, a value outside [uint64], and a value above 65535
    each give the value 0 with an error. *)
Theorem parseLockTime_accepts_exactly_uint16
  (NewIntFromString : string -> option Int) (str : string) :
  (forall v, parseLockTime NewIntFromString str = Some (v, None)
             <-> exists n, NewIntFromString str = Some n /\ 0 <= n <= 65535 /\ v = n)
  /\ parseLockTime NewIntFromString str <> None
  /\ (NewIntFromString str = None ->
      exists e, parseLockTime NewIntFromString str = Some (0, Some e))
  /\ (forall n, NewIntFromString str = Some n -> n < 0 \/ 2 ^ 64 <= n ->
      exists e, parseLockTime NewIntFromString str = Some (0, Some e))
  /\ (forall n, NewIntFromString str = Some n -> 65535 < n ->
      exists e, parseLockTime NewIntFromString str = Some (0, Some e)).
Proof.
  pose proof (parseLockTime_cases NewIntFromString str) as Hc.
  destruct (NewIntFromString str) as [n|] eqn:En.
  - destruct (IsUint64 n) eqn:Eu; simpl in Hc.
    + apply IsUint64_spec in Eu.
      destruct (MaxUint16 <? n) eqn:Em; unfold MaxUint16 in Em.
      * apply Z.ltb_lt in Em. rewrite Hc. repeat split; try discriminate.
        -- intros [m [Hm [Hr _]]]. injection Hm as <-. lia.
        -- intros m _ _. eauto.
        -- intros m _ _. eauto.
      * apply Z.ltb_ge in Em. rewrite Hc. repeat split; try discriminate.
        -- intros Hv. injection Hv as <-. exists n. repeat split; lia.
        -- intros [m [Hm [_ ->]]]. now injection Hm as <-.
        -- intros m Hm Hr. injection Hm as <-. lia.
        -- intros m Hm Hr. injection Hm as <-. lia.
    + assert (~ (0 <= n < 2 ^ 64)) as Hn
        by (intros H; apply IsUint64_spec in H; congruence).
      rewrite Hc. repeat split; try discriminate.
      * intros [m [Hm [Hr _]]]. injection Hm as <-. lia.
      * intros m _ _. eauto.
      * intros m _ _. eauto.
  - rewrite Hc. repeat split; try discriminate.
    + intros [m [Hm _]]. discriminate.
    + intros _. eauto.
Qed.

(** The outcomes of [parseBtcAmount]. *)
Lemma parseBtcAmount_cases (NewIntFromString : string -> option Int) (str : string) :
  match NewIntFromString str with
  | None =>
      parseBtcAmount NewIntFromString str
      = Some (0, Some ("invalid staking value: " ++ str)%string)
  | Some n =>
      if IsNegative n
      then parseBtcAmount NewIntFromString str
           = Some (0, Some "staking value is negative"%string)
      else if negb (IsInt64 n)
      then parseBtcAmount NewIntFromString str
           = Some (0, Some "staking value is not valid uint"%string)
      else parseBtcAmount NewIntFromString str = Some (n, None)
  end.
Proof.
  unfold parseBtcAmount, Int64.
  destruct (NewIntFromString str) as [n|]; [|reflexivity].
  destruct (IsNegative n); [reflexivity|].
  destruct (IsInt64 n); reflexivity.
Qed.

(** C9. [parseBtcAmount] returns a value without error exactly when the
    string parses (by [NewIntFromString]) to a non-negative integer that
    fits [int64], and then the value is that integer; it never panics. The
    string ["0"], read as zero, gives the amount 0 without error. A
    negative value and a string that does not parse give an error. *)
Theorem parseBtcAmount_accepts_exactly_nonneg_int64
  (NewIntFromString : string -> option Int)
  (zero_parses : NewIntFromString "0"%string = Some 0) :
  (forall str v, parseBtcAmount NewIntFromString str = Some (v, None)
                 <-> exists n, NewIntFromString str = Some n /\ 0 <= n < 2 ^ 63 /\ v = n)
  /\ (forall str, parseBtcAmount NewIntFromString str <> None)
  /\ parseBtcAmount NewIntFromString "0"%string = Some (0, None)
  /\ (forall str n, NewIntFromString str = Some n -> n < 0 ->
      exists e, parseBtcAmount NewIntFromString str = Some (0, Some e))
  /\ (forall str, NewIntFromString str = None ->
      exists e, parseBtcAmount NewIntFromString str = Some (0, Some e)).
Proof.
  assert (forall str v, parseBtcAmount NewIntFromString str = Some (v, None)
                 <-> exists n, NewIntFromString str = Some n /\ 0 <= n < 2 ^ 63 /\ v = n)
    as Hiff.
  { intros str v. pose proof (parseBtcAmount_cases NewIntFromString str) as Hc.
    destruct (NewIntFromString str) as [n|] eqn:En.
    - unfold IsNegative in Hc. destruct (n <? 0) eqn:Eneg.
      + apply Z.ltb_lt in Eneg. rewrite Hc. split; [discriminate|].
        intros [m [Hm [Hr _]]]. injection Hm as <-. lia.
      + apply Z.ltb_ge in Eneg. destruct (IsInt64 n) eqn:Ei; simpl in Hc; rewrite Hc.
        * apply IsInt64_spec in Ei. split.
          -- intros Hv. injection Hv as <-. exists n. repeat split; lia.
          -- intros [m [Hm [_ ->]]]. now injection Hm as <-.
        * split; [discriminate|].
          intros [m [Hm [Hr _]]]. injection Hm as <-.
          assert (IsInt64 n = true) by (apply IsInt64_spec; lia). congruence.
    - rewrite Hc. split; [discriminate|]. intros [m [Hm _]]. discriminate. }
  split; [exact Hiff|]. split; [|split; [|split]].
  - intros str. pose proof (parseBtcAmount_cases NewIntFromString str) as Hc.
    destruct (NewIntFromString str) as [n|].
    + destruct (IsNegative n); [congruence|].
      destruct (negb (IsInt64 n)); congruence.
    + congruence.
  - apply Hiff. exists 0. split; [assumption|]. split; [lia|reflexivity].
  - intros str n Hn Hneg. pose proof (parseBtcAmount_cases NewIntFromString str) as Hc.
    rewrite Hn in Hc. unfold IsNegative in Hc.
    apply Z.ltb_lt in Hneg. rewrite Hneg in Hc. eauto.
  - intros str Hn. pose proof (parseBtcAmount_cases NewIntFromString str) as Hc.
    rewrite Hn in Hc. eauto.
Qed.

Lemma parseBtcAmount_accepts_exactly_nonneg_int64_witness :
  parseBtcAmount decimalFromString "0"%string = Some (0, None)
  /\ (exists e, parseBtcAmount decimalFromString "-5"%string = Some (0, Some e))
  /\ (exists e, parseBtcAmount decimalFromString "1btc"%string = Some (0, Some e)).
Proof.
  pose proof (parseBtcAmount_accepts_exactly_nonneg_int64 decimalFromString eq_refl)
    as [_ [_ [Hzero [Hneg Hbad]]]].
  split; [exact Hzero|]. split.
  - exact (Hneg "-5"%string (-5) eq_refl eq_refl).
  - exact (Hbad "1btc"%string eq_refl).
Defined.

Lemma parseLockTime_accepts_exactly_uint16_witness :
  parseLockTime decimalFromString "65535"%string = Some (65535, None)
  /\ (exists e, parseLockTime decimalFromString "65536"%string = Some (0, Some e))
  /\ (exists e, parseLockTime decimalFromString "18446744073709551616"%string
                = Some (0, Some e))
  /\ (exists e, parseLockTime decimalFromString "five"%string = Some (0, Some e)).
Proof.
  split; [|split; [|split]].
  - apply (proj1 (parseLockTime_accepts_exactly_uint16 decimalFromString "65535"%string)).
    exists 65535. split; [reflexivity|]. split; [|reflexivity]. split; discriminate.
  - apply (proj2 (proj2 (proj2 (proj2
             (parseLockTime_accepts_exactly_uint16 decimalFromString "65536"%string))))
             65536 eq_refl eq_refl).
  - apply (proj1 (proj2 (proj2 (proj2
             (parseLockTime_accepts_exactly_uint16 decimalFromString
                "18446744073709551616"%string))))
             18446744073709551616 eq_refl).
    right. discriminate.
  - apply (proj1 (proj2 (proj2
             (parseLockTime_accepts_exactly_uint16 decimalFromString "five"%string)))
             eq_refl).
Defined.

End CliFacts.

(* ===================================================================== *)
(** * Theorems: byte comparison and stable sorting *)
(* ===================================================================== *)

Module CompareFacts.

Lemma Compare_range a b : Bytes.Compare a b = -1 \/ Bytes.Compare a b = 0 \/ Bytes.Compare a b = 1.
Proof.
  revert b. induction a as [|x a IH]; intros [|y b]; cbn [Bytes.Compare]; auto.
  destruct (byte.unsigned x <? byte.unsigned y); auto.
  destruct (byte.unsigned y <? byte.unsigned x); auto.
Qed.

Lemma Compare_antisym a b : Bytes.Compare b a = - Bytes.Compare a b.
Proof.
  revert b. induction a as [|x a IH]; intros [|y b]; cbn [Bytes.Compare]; try reflexivity.
  destruct (Z.ltb_spec (byte.unsigned x) (byte.unsigned y));
    destruct (Z.ltb_spec (byte.unsigned y) (byte.unsigned x)); try lia; try reflexivity.
  apply IH.
Qed.

Lemma Compare_eq a b : Bytes.Compare a b = 0 <-> a = b.
Proof.
  revert b. induction a as [|x a IH]; intros [|y b]; cbn [Bytes.Compare];
    try (split; [discriminate|congruence]); try tauto.
  destruct (Z.ltb_spec (byte.unsigned x) (byte.unsigned y)).
  - split; [discriminate|]. intros E. injection E as -> ->. lia.
  - destruct (Z.ltb_spec (byte.unsigned y) (byte.unsigned x)).
    + split; [discriminate|]. intros E. injection E as -> ->. lia.
    + rewrite IH. split.
      * intros ->. f_equal. apply byte.unsigned_inj. lia.
      * intros E. now injection E.
Qed.

Lemma Compare_gt_trans a : forall b c,
  Bytes.Compare a b = 1 -> Bytes.Compare b c = 1 -> Bytes.Compare a c = 1.
Proof.
  induction a as [|x a IH]; intros [|y b] [|z c]; cbn [Bytes.Compare]; try discriminate; auto.
  destruct (Z.ltb_spec (byte.unsigned x) (byte.unsigned y)); [discriminate|].
  destruct (Z.ltb_spec (byte.unsigned y) (byte.unsigned z)); [discriminate|].
  destruct (Z.ltb_spec (byte.unsigned y) (byte.unsigned x));
    destruct (Z.ltb_spec (byte.unsigned z) (byte.unsigned y));
    destruct (Z.ltb_spec (byte.unsigned x) (byte.unsigned z));
    destruct (Z.ltb_spec (byte.unsigned z) (byte.unsigned x)); try lia; auto.
  apply IH.
Qed.

(** "not after": [b] does not have to come before [a]. *)
Lemma Compare_not_gt_trans a b c :
  Bytes.Compare b a <> 1 -> Bytes.Compare c b <> 1 -> Bytes.Compare c a <> 1.
Proof.
  intros Hba Hcb Hca.
  destruct (Compare_range b a) as [E|[E|E]]; [| |contradiction].
  - apply Hcb. apply Compare_gt_trans with a; [assumption|].
    rewrite (Compare_antisym b a). lia.
  - apply Compare_eq in E. subst. contradiction.
Qed.

End CompareFacts.

Module SortFacts.

Section Stable.
Context {A : Type}.
Variable less : A -> A -> bool.

Lemma insert_perm x l : Permutation (Sort.insert less x l) (x :: l).
Proof.
  induction l as [|y l IH]; cbn [Sort.insert]; [reflexivity|].
  destruct (less y x); [|reflexivity].
  apply perm_trans with (y :: x :: l); [now constructor|apply perm_swap].
Qed.

Lemma SliceStable_perm l : Permutation (Sort.SliceStable less l) l.
Proof.
  induction l as [|x l IH]; cbn [Sort.SliceStable]; [reflexivity|].
  apply perm_trans with (x :: Sort.SliceStable less l); [apply insert_perm|now constructor].
Qed.

Lemma SliceStable_length l : length (Sort.SliceStable less l) = length l.
Proof. apply Permutation_length, SliceStable_perm. Qed.

(** [a] may stand before [b]: [b] does not have to come before [a]. *)
Local Abbreviation inOrder := (fun a b : A => less b a = false).

Hypothesis less_asym : forall a b, less a b = true -> less b a = false.

Lemma insert_sorted x l : Sorted inOrder l -> Sorted inOrder (Sort.insert less x l).
Proof.
  induction 1 as [|y l Hs IH Hhd]; cbn [Sort.insert]; [repeat constructor|].
  destruct (less y x) eqn:E.
  - constructor; [exact IH|].
    destruct l as [|z l]; cbn [Sort.insert].
    + constructor. now apply less_asym.
    + destruct (less z x); constructor.
      * now inversion Hhd.
      * now apply less_asym.
  - constructor; [now constructor|]. constructor. exact E.
Qed.

Lemma SliceStable_sorted l : Sorted inOrder (Sort.SliceStable less l).
Proof.
  induction l as [|x l IH]; cbn [Sort.SliceStable]; [constructor|].
  now apply insert_sorted.
Qed.

Lemma SliceStable_of_sorted l : Sorted inOrder l -> Sort.SliceStable less l = l.
Proof.
  induction 1 as [|x l Hs IH Hhd]; cbn [Sort.SliceStable]; [reflexivity|].
  rewrite IH. destruct Hhd as [|y l' Hxy]; cbn [Sort.insert]; [reflexivity|].
  cbv beta in Hxy. now rewrite Hxy.
Qed.
End Stable.

Section Filter.
Context {A : Type}.
Variable less : A -> A -> bool.
Variable p : A -> bool.
(** [p] selects a class of elements none of which has to come before
    another. *)
Hypothesis class : forall a b, p a = true -> less b a = true -> p b = false.

Lemma filter_insert x l :
  filter p (Sort.insert less x l) = if p x then x :: filter p l else filter p l.
Proof.
  induction l as [|y l IH]; cbn [Sort.insert filter]; [reflexivity|].
  destruct (less y x) eqn:E; cbn [filter].
  - rewrite IH. destruct (p x) eqn:Px; [|reflexivity].
    now rewrite (class x y Px E).
  - reflexivity.
Qed.

Lemma filter_SliceStable l : filter p (Sort.SliceStable less l) = filter p l.
Proof.
  induction l as [|x l IH]; cbn [Sort.SliceStable filter]; [reflexivity|].
  rewrite filter_insert, IH. reflexivity.
Qed.
End Filter.

Section Map.
Context {A B : Type}.
Variable f : A -> B.
Variable less : B -> B -> bool.

Lemma map_insert x l :
  map f (Sort.insert (fun a b => less (f a) (f b)) x l) = Sort.insert less (f x) (map f l).
Proof.
  induction l as [|y l IH]; cbn [Sort.insert map]; [reflexivity|].
  destruct (less (f y) (f x)); cbn [map]; [now rewrite IH|reflexivity].
Qed.

Lemma map_SliceStable l :
  map f (Sort.SliceStable (fun a b => less (f a) (f b)) l) = Sort.SliceStable less (map f l).
Proof.
  induction l as [|x l IH]; cbn [Sort.SliceStable map]; [reflexivity|].
  now rewrite map_insert, IH.
Qed.
End Map.

Section Pairs.
Context {A B : Type}.
Variable R : A -> B -> Prop.
Variable lessA : A -> A -> bool.
Variable lessB : B -> B -> bool.
Hypothesis agree : forall a a' b b', R a b -> R a' b' -> lessA a a' = lessB b b'.

Lemma Forall2_insert a b l1 l2 :
  R a b -> Forall2 R l1 l2 -> Forall2 R (Sort.insert lessA a l1) (Sort.insert lessB b l2).
Proof.
  intros Hab H. induction H as [|a' b' l1 l2 Hab' H IH]; cbn [Sort.insert].
  - repeat constructor. exact Hab.
  - rewrite (agree a' a b' b Hab' Hab). destruct (lessB b' b); repeat constructor; assumption.
Qed.

Lemma Forall2_SliceStable l1 l2 :
  Forall2 R l1 l2 -> Forall2 R (Sort.SliceStable lessA l1) (Sort.SliceStable lessB l2).
Proof.
  induction 1; cbn [Sort.SliceStable]; [constructor|]. now apply Forall2_insert.
Qed.
End Pairs.

End SortFacts.

(* ===================================================================== *)
(** * Theorems: composing epoching hooks *)
(* ===================================================================== *)

Module EpochingExtra.

Import Epoching.

Section Compose.
Variables (Store Error : Type).
Variable method : EpochingHooks Store Error -> Hook Store Error.

Lemma run_hooks_app (h1 h2 : MultiEpochingHooks Store Error) epoch ctx :
  run_hooks method (h1 ++ h2) epoch ctx
  = match run_hooks method h1 epoch ctx with
    | (Some err, ctx') => (Some err, ctx')
    | (None, ctx') => run_hooks method h2 epoch ctx'
    end.
Proof.
  revert ctx. induction h1 as [|h0 rest IH]; intros ctx; [reflexivity|].
  cbn [app run_hooks]. destruct (method h0 epoch ctx) as [[err|] ctx']; [reflexivity|].
  apply IH.
Qed.

Lemma run_hooks_error_origin (h : MultiEpochingHooks Store Error) epoch :
  forall ctx err ctx',
    run_hooks method h epoch ctx = (Some err, ctx') ->
    exists i hi ctx_i,
      nth_error h i = Some hi
      /\ run_hooks method (firstn i h) epoch ctx = (None, ctx_i)
      /\ method hi epoch ctx_i = (Some err, ctx').
Proof.
  induction h as [|h0 rest IH]; intros ctx err ctx' Hrun; [discriminate|].
  cbn [run_hooks] in Hrun.
  destruct (method h0 epoch ctx) as [[e|] c] eqn:E0.
  - injection Hrun as -> ->. exists 0%nat, h0, ctx. repeat split; assumption.
  - destruct (IH c err ctx' Hrun) as [i [hi [ctx_i [Hn [Hp Hf]]]]].
    exists (S i), hi, ctx_i. repeat split; try assumption.
    cbn [firstn run_hooks]. now rewrite E0.
Qed.
End Compose.

Lemma Begins_run {Store Error} (h : MultiEpochingHooks Store Error) epoch ctx :
  Multi_AfterEpochBegins h epoch ctx = run_hooks AfterEpochBegins h epoch ctx.
Proof.
  revert ctx; induction h as [|hi rest IH]; intros ctx; simpl; [reflexivity|].
  destruct (AfterEpochBegins hi epoch ctx) as [[err|] ctx']; auto.
Qed.

Lemma Ends_run {Store Error} (h : MultiEpochingHooks Store Error) epoch ctx :
  Multi_AfterEpochEnds h epoch ctx = run_hooks AfterEpochEnds h epoch ctx.
Proof.
  revert ctx; induction h as [|hi rest IH]; intros ctx; simpl; [reflexivity|].
  destruct (AfterEpochEnds hi epoch ctx) as [[err|] ctx']; auto.
Qed.

(** X1. Running the hooks of [h1 ++ h2] is running [h1] and then, only if
    every hook of [h1] returned [nil], running [h2] on the store [h1] left;
    an error of [h1] is returned as it is and [h2] is not run. This holds
    for [AfterEpochBegins] and for [AfterEpochEnds]. *)
Theorem MultiEpochingHooks_concatenation
  {Store Error : Type} (h1 h2 : MultiEpochingHooks Store Error) (epoch : Uint) (ctx : Store) :
  Multi_AfterEpochBegins (h1 ++ h2) epoch ctx
  = match Multi_AfterEpochBegins h1 epoch ctx with
    | (Some err, ctx') => (Some err, ctx')
    | (None, ctx') => Multi_AfterEpochBegins h2 epoch ctx'
    end
  /\ Multi_AfterEpochEnds (h1 ++ h2) epoch ctx
     = match Multi_AfterEpochEnds h1 epoch ctx with
       | (Some err, ctx') => (Some err, ctx')
       | (None, ctx') => Multi_AfterEpochEnds h2 epoch ctx'
       end.
Proof.
  split.
  - rewrite !Begins_run, run_hooks_app.
    destruct (run_hooks AfterEpochBegins h1 epoch ctx) as [[e|] c]; [reflexivity|].
    now rewrite Begins_run.
  - rewrite !Ends_run, run_hooks_app.
    destruct (run_hooks AfterEpochEnds h1 epoch ctx) as [[e|] c]; [reflexivity|].
    now rewrite Ends_run.
Qed.

(** X2. A [MultiEpochingHooks] is itself an [EpochingHooks], so hook
    sets can be nested: a [MultiEpochingHooks] whose elements are
    [MultiEpochingHooks] values behaves, for both methods, exactly as the
    single list of all their hooks in order. *)
Theorem MultiEpochingHooks_nested_is_flattened
  {Store Error : Type} (hs : list (MultiEpochingHooks Store Error)) (epoch : Uint) (ctx : Store) :
  Multi_AfterEpochBegins (map (MultiEpochingHooks_hooks Store Error) hs) epoch ctx
  = Multi_AfterEpochBegins (concat hs) epoch ctx
  /\ Multi_AfterEpochEnds (map (MultiEpochingHooks_hooks Store Error) hs) epoch ctx
     = Multi_AfterEpochEnds (concat hs) epoch ctx.
Proof.
  split.
  - revert ctx. induction hs as [|h hs IH]; intros ctx; [reflexivity|].
    cbn [map concat Multi_AfterEpochBegins MultiEpochingHooks_hooks AfterEpochBegins].
    rewrite (Begins_run (h ++ concat hs)), run_hooks_app, <- Begins_run.
    destruct (Multi_AfterEpochBegins h epoch ctx) as [[e|] c]; [reflexivity|].
    rewrite <- Begins_run. apply IH.
  - revert ctx. induction hs as [|h hs IH]; intros ctx; [reflexivity|].
    cbn [map concat Multi_AfterEpochEnds MultiEpochingHooks_hooks AfterEpochEnds].
    rewrite (Ends_run (h ++ concat hs)), run_hooks_app, <- Ends_run.
    destruct (Multi_AfterEpochEnds h epoch ctx) as [[e|] c]; [reflexivity|].
    rewrite <- Ends_run. apply IH.
Qed.

(** X3. An error returned by [MultiEpochingHooks.AfterEpochBegins] or
    [AfterEpochEnds] is always the error of one of the hooks: there is an
    index [i] whose hook returned exactly that error and left exactly the
    resulting store, after the hooks before [i] all returned [nil]. *)
Theorem MultiEpochingHooks_error_comes_from_a_hook
  {Store Error : Type} (h : MultiEpochingHooks Store Error) (epoch : Uint) (ctx : Store) :
  (forall err ctx',
      Multi_AfterEpochBegins h epoch ctx = (Some err, ctx') ->
      exists i hi ctx_i,
        nth_error h i = Some hi
        /\ Multi_AfterEpochBegins (firstn i h) epoch ctx = (None, ctx_i)
        /\ AfterEpochBegins hi epoch ctx_i = (Some err, ctx'))
  /\ (forall err ctx',
      Multi_AfterEpochEnds h epoch ctx = (Some err, ctx') ->
      exists i hi ctx_i,
        nth_error h i = Some hi
        /\ Multi_AfterEpochEnds (firstn i h) epoch ctx = (None, ctx_i)
        /\ AfterEpochEnds hi epoch ctx_i = (Some err, ctx')).
Proof.
  split; intros err ctx' H.
  - rewrite Begins_run in H.
    destruct (run_hooks_error_origin Store Error AfterEpochBegins h epoch ctx err ctx' H)
      as [i [hi [ctx_i [Hn [Hp Hf]]]]].
    exists i, hi, ctx_i. rewrite Begins_run. auto.
  - rewrite Ends_run in H.
    destruct (run_hooks_error_origin Store Error AfterEpochEnds h epoch ctx err ctx' H)
      as [i [hi [ctx_i [Hn [Hp Hf]]]]].
    exists i, hi, ctx_i. rewrite Ends_run. auto.
Qed.

Lemma MultiEpochingHooks_error_comes_from_a_hook_witness :
  exists i hi ctx_i,
    nth_error EpochingFacts.sample_hooks i = Some hi
    /\ Multi_AfterEpochBegins (firstn i EpochingFacts.sample_hooks) 7%N 0 = (None, ctx_i)
    /\ AfterEpochBegins hi 7%N ctx_i = (Some "second hook failed"%string, 107).
Proof.
  exact (proj1 (MultiEpochingHooks_error_comes_from_a_hook EpochingFacts.sample_hooks 7%N 0)
           "second hook failed"%string 107 eq_refl).
Defined.

End EpochingExtra.

(* ===================================================================== *)
(** * Theorems: the two parsers together *)
(* ===================================================================== *)

Module CliExtra.
Import Cli.

(** X4. Every string [parseLockTime] accepts is also accepted by
    [parseBtcAmount], with the same value. *)
Theorem parseLockTime_accepted_is_accepted_amount
  (NewIntFromString : string -> option Int) (str : string) (v : Z) :
  parseLockTime NewIntFromString str = Some (v, None) ->
  parseBtcAmount NewIntFromString str = Some (v, None).
Proof.
  unfold parseLockTime, parseBtcAmount, Uint64, Int64, IsNegative.
  destruct (NewIntFromString str) as [n|]; [|discriminate].
  destruct (IsUint64 n) eqn:Eu; cbn [negb]; [|discriminate].
  destruct (Z.ltb_spec MaxUint16 n) as [|Hle]; [discriminate|].
  unfold IsUint64 in Eu. apply andb_true_iff in Eu as [H0 _]. apply Z.leb_le in H0.
  unfold MaxUint16 in Hle. unfold uint16_of_uint64. rewrite Z.mod_small by lia.
  intros Hr. injection Hr as <-.
  destruct (Z.ltb_spec n 0); [lia|].
  assert (IsInt64 n = true) as ->.
  { unfold IsInt64. apply andb_true_iff. split; [apply Z.leb_le|apply Z.ltb_lt]; lia. }
  reflexivity.
Qed.

(** X5. The error texts of the two parsers. A string that does not parse
    is reported with the string itself; a negative number is "not valid
    uint" for a lock time and "negative" for an amount; a lock time above
    65535 that fits [uint64] is "too large", one that does not fit is "not
    valid uint"; an amount that does not fit [int64] is "not valid uint".
    The value returned with an error is 0. *)
Theorem parse_error_messages
  (NewIntFromString : string -> option Int) (str : string) :
  (NewIntFromString str = None ->
     parseLockTime NewIntFromString str
     = Some (0, Some ("invalid staking time: " ++ str)%string)
     /\ parseBtcAmount NewIntFromString str
        = Some (0, Some ("invalid staking value: " ++ str)%string))
  /\ (forall n, NewIntFromString str = Some n -> n < 0 ->
        parseLockTime NewIntFromString str
        = Some (0, Some "staking time is not valid uint"%string)
        /\ parseBtcAmount NewIntFromString str
           = Some (0, Some "staking value is negative"%string))
  /\ (forall n, NewIntFromString str = Some n -> 65535 < n < 2 ^ 64 ->
        parseLockTime NewIntFromString str
        = Some (0, Some "staking time is too large. Max is 65535"%string))
  /\ (forall n, NewIntFromString str = Some n -> 2 ^ 64 <= n ->
        parseLockTime NewIntFromString str
        = Some (0, Some "staking time is not valid uint"%string))
  /\ (forall n, NewIntFromString str = Some n -> 2 ^ 63 <= n ->
        parseBtcAmount NewIntFromString str
        = Some (0, Some "staking value is not valid uint"%string)).
Proof.
  unfold parseLockTime, parseBtcAmount, Uint64, Int64, IsNegative, IsUint64, IsInt64, MaxUint16.
  split; [intros ->; split; reflexivity|].
  split; [|split; [|split]]; intros n -> Hn.
  - destruct (Z.leb_spec 0 n); [lia|]. destruct (Z.ltb_spec n 0); [|lia]. split; reflexivity.
  - destruct (Z.leb_spec 0 n); [|lia]. destruct (Z.ltb_spec n (2 ^ 64)); [|lia].
    cbn [andb negb]. destruct (Z.ltb_spec 65535 n); [reflexivity|lia].
  - destruct (Z.leb_spec 0 n); [|lia]. destruct (Z.ltb_spec n (2 ^ 64)); [lia|]. reflexivity.
  - destruct (Z.ltb_spec n 0); [lia|]. destruct (Z.leb_spec (- 2 ^ 63) n); [|lia].
    destruct (Z.ltb_spec n (2 ^ 63)); [lia|]. reflexivity.
Qed.
Lemma parseLockTime_accepted_is_accepted_amount_witness :
  parseBtcAmount decimalFromString "65535"%string = Some (65535, None).
Proof.
  exact (parseLockTime_accepted_is_accepted_amount decimalFromString "65535"%string 65535
           eq_refl).
Defined.

Lemma parse_error_messages_witness :
  parseLockTime decimalFromString "-5"%string
  = Some (0, Some "staking time is not valid uint"%string)
  /\ parseBtcAmount decimalFromString "-5"%string
     = Some (0, Some "staking value is negative"%string).
Proof.
  exact (proj1 (proj2 (parse_error_messages decimalFromString "-5"%string))
           (-5) eq_refl eq_refl).
Defined.

End CliExtra.

(* ===================================================================== *)
(** * Theorems: test scenarios *)
(* ===================================================================== *)

Module ScenarioFacts.
Import BtcStakingTest ScenarioGen.

Section Gen.
Context {P : Primitives}.
Variable Entropy : Type.
Variable NewPrivateKey : Entropy -> option PrivateKey * Entropy.

Lemma generateKeys_length n : forall e keys e',
  generateKeys Entropy NewPrivateKey n e = (Some keys, e') -> length keys = n.
Proof.
  induction n as [|n IH]; intros e keys e' H; cbn [generateKeys] in H.
  - now injection H as <- _.
  - destruct (NewPrivateKey e) as [[key|] e1]; [|discriminate].
    destruct (generateKeys Entropy NewPrivateKey n e1) as [[ks|] e2] eqn:E; [|discriminate].
    injection H as <- _. cbn [length]. f_equal. eapply IH. exact E.
Qed.

(** X22. When [GenerateTestScenario] returns a scenario, the staker key is
    the first key drawn from the random source, there are exactly
    [numValidatorKeys] validator keys and [numCovenantKeys] covenant keys
    (and as many public keys from [ValidatorPublicKeys] and
    [CovenantPublicKeys]), and the threshold, amount and time are the ones
    passed in. *)
Theorem GenerateTestScenario_has_requested_keys
  (numValidatorKeys numCovenantKeys : nat) (requiredCovenantSigs stakingAmount stakingTime : Z)
  (e e' : Entropy) (scenario : TestScenario) :
  GenerateTestScenario Entropy NewPrivateKey numValidatorKeys numCovenantKeys
    requiredCovenantSigs stakingAmount stakingTime e = (Some scenario, e') ->
  fst (NewPrivateKey e) = Some (StakerKey scenario)
  /\ length (ValidatorKeys scenario) = numValidatorKeys
  /\ length (CovenantKeys scenario) = numCovenantKeys
  /\ length (ValidatorPublicKeys scenario) = numValidatorKeys
  /\ length (CovenantPublicKeys scenario) = numCovenantKeys
  /\ RequiredCovenantSigs scenario = requiredCovenantSigs
  /\ StakingAmount scenario = stakingAmount
  /\ StakingTime scenario = stakingTime.
Proof.
  unfold GenerateTestScenario. intros H.
  destruct (NewPrivateKey e) as [[staker|] e1]; [|discriminate].
  destruct (generateKeys Entropy NewPrivateKey numValidatorKeys e1) as [[vs|] e2] eqn:Ev;
    [|discriminate].
  destruct (generateKeys Entropy NewPrivateKey numCovenantKeys e2) as [[cs|] e3] eqn:Ec;
    [|discriminate].
  injection H as <- _. apply generateKeys_length in Ev, Ec.
  unfold ValidatorPublicKeys, CovenantPublicKeys. cbn. rewrite !length_map. auto 10.
Qed.
End Gen.
Lemma GenerateTestScenario_has_requested_keys_witness :
  fst (Sample.nextKey 1) = Some (Toy.key 1)
  /\ length [Toy.key 2; Toy.key 3] = 2%nat
  /\ length [Toy.key 4; Toy.key 5; Toy.key 6; Toy.key 7; Toy.key 8] = 5%nat
  /\ length (map (fun sk : bytes => sk) [Toy.key 2; Toy.key 3]) = 2%nat
  /\ length (map (fun sk : bytes => sk)
               [Toy.key 4; Toy.key 5; Toy.key 6; Toy.key 7; Toy.key 8]) = 5%nat
  /\ 3 = 3 /\ 2000000000 = 2000000000 /\ 5 = 5.
Proof.
  exact (GenerateTestScenario_has_requested_keys (P := Toy.primitives) Z Sample.nextKey
           2 5 3 2000000000 5 1 _ _ eq_refl).
Defined.

End ScenarioFacts.

(* ===================================================================== *)
(** * Theorems: the transaction commands *)
(* ===================================================================== *)

Module CliCommandFacts.

Import Cli CliCommands.

Lemma bind_inr {E A B} (m : step E A) (k : A -> step E B) b :
  bind E m k = Some (inr b) -> exists a, m = Some (inr a) /\ k a = Some (inr b).
Proof.
  destruct m as [[e|a]|]; cbn [bind]; try discriminate. eauto.
Qed.

Lemma check_inr {E A} (r : E + A) a : check E r = Some (inr a) -> r = inr a.
Proof. destruct r; cbn; intros H; [discriminate|]. now injection H as ->. Qed.

Lemma checkWrapped_inr {E A} prefix (r : E + A) a :
  checkWrapped E prefix r = Some (inr a) -> r = inr a.
Proof. destruct r; cbn; intros H; [discriminate|]. now injection H as ->. Qed.

Lemma arg_inr {E} args i s : arg E args i = Some (inr s) -> nth_error args i = Some s.
Proof. unfold arg. destruct (nth_error args i); cbn; intros H; [|discriminate]. now injection H as ->. Qed.

Lemma argsFrom_inr {E} args n l :
  argsFrom E args n = Some (inr l) -> l = skipn n args /\ (n <= length args)%nat.
Proof.
  unfold argsFrom. destruct (Nat.ltb_spec (length args) n) as [|Hle]; [discriminate|].
  unfold ret. intros Hr. inversion Hr. split; [reflexivity|assumption].
Qed.

Lemma checkParsed_inr {E} r v : checkParsed E r = Some (inr v) -> r = Some (v, None).
Proof.
  destruct r as [[v' [t|]]|]; cbn; intros H; try discriminate. now injection H as ->.
Qed.

Lemma parseLockTime_ok NewIntFromString str v :
  parseLockTime NewIntFromString str = Some (v, None) ->
  NewIntFromString str = Some v /\ 0 <= v <= 65535.
Proof.
  unfold parseLockTime, Uint64.
  destruct (NewIntFromString str) as [n|]; [|discriminate].
  destruct (IsUint64 n) eqn:Eu; cbn [negb]; [|discriminate].
  destruct (Z.ltb_spec MaxUint16 n) as [|Hle]; [discriminate|].
  unfold IsUint64 in Eu. apply andb_true_iff in Eu as [H0 _]. apply Z.leb_le in H0.
  unfold MaxUint16 in Hle. unfold uint16_of_uint64. rewrite Z.mod_small by lia.
  intros Hr. injection Hr as <-. split; [reflexivity|lia].
Qed.

Lemma parseBtcAmount_ok NewIntFromString str v :
  parseBtcAmount NewIntFromString str = Some (v, None) ->
  NewIntFromString str = Some v /\ 0 <= v < 2 ^ 63.
Proof.
  unfold parseBtcAmount, Int64, IsNegative.
  destruct (NewIntFromString str) as [n|]; [|discriminate].
  destruct (Z.ltb_spec n 0) as [|Hnn]; [discriminate|].
  destruct (IsInt64 n) eqn:Ei; cbn [negb]; [|discriminate].
  unfold IsInt64 in Ei. apply andb_true_iff in Ei as [_ H1]. apply Z.ltb_lt in H1.
  intros Hr. injection Hr as <-. split; [reflexivity|lia].
Qed.

Lemma parseLockTime_total NewIntFromString str : parseLockTime NewIntFromString str <> None.
Proof.
  unfold parseLockTime, Uint64. destruct (NewIntFromString str) as [n|]; [|discriminate].
  destruct (IsUint64 n); cbn [negb]; [|discriminate].
  destruct (MaxUint16 <? n); discriminate.
Qed.

Lemma parseBtcAmount_total NewIntFromString str : parseBtcAmount NewIntFromString str <> None.
Proof.
  unfold parseBtcAmount, Int64. destruct (NewIntFromString str) as [n|]; [|discriminate].
  destruct (IsNegative n); [discriminate|].
  destruct (IsInt64 n); cbn [negb]; discriminate.
Qed.

Ltac step_inv H :=
  let a := fresh "a" in
  let Ha := fresh "Ha" in
  apply bind_inr in H; destruct H as [a [Ha H]].

Section Delegation.
Variable Error : Type.
Variables ClientCtx Secp256k1PubKey BIP340PubKey ProofOfPossession : Type.
Variables TransactionInfo BTCSlashingTx BIP340Signature : Type.
Variable GetClientTxContext : Error + ClientCtx.
Variable FromAddress_String : ClientCtx -> string.
Variable hex_DecodeString : string -> Error + bytes.
Variable Secp256k1PubKey_Unmarshal : bytes -> Error + Secp256k1PubKey.
Variable NewBIP340PubKeyFromHex : string -> Error + BIP340PubKey.
Variable NewPoPFromHex : string -> Error + ProofOfPossession.
Variable NewTransactionInfoFromHex : string -> Error + TransactionInfo.
Variable NewBTCSlashingTxFromHex : string -> Error + BTCSlashingTx.
Variable NewBIP340SignatureFromHex : string -> Error + BIP340Signature.
Variable NewIntFromString : string -> option Int.

(** X8. When [create-btc-delegation] gets as far as handing a message to
    the broadcaster, it was given exactly 9 arguments, the signer is the
    address of the client context, the validator list holds exactly the
    one key read from argument 4, the staking time is the integer argument 5
    parses to and lies in 0..65535, and the staking value is the integer
    argument 6 parses to and lies in 0..2^63-1: the two conversions
    [uint32(stakingTime)] and [int64(stakingValue)] lose nothing. *)
Theorem create_btc_delegation_message_fields (args : list string) ctx msg :
  NewCreateBTCDelegationCmd GetClientTxContext FromAddress_String hex_DecodeString
    Secp256k1PubKey_Unmarshal NewBIP340PubKeyFromHex NewPoPFromHex
    NewTransactionInfoFromHex NewBTCSlashingTxFromHex NewBIP340SignatureFromHex
    NewIntFromString args = Some (inr (ctx, msg)) ->
  length args = 9%nat
  /\ GetClientTxContext = inr ctx
  /\ D_Signer msg = FromAddress_String ctx
  /\ (exists a4 valPK, nth_error args 4 = Some a4
                       /\ NewBIP340PubKeyFromHex a4 = inr valPK
                       /\ D_ValBtcPkList msg = [valPK])
  /\ (exists a5, nth_error args 5 = Some a5
                 /\ NewIntFromString a5 = Some (D_StakingTime msg)
                 /\ 0 <= D_StakingTime msg <= 65535)
  /\ (exists a6, nth_error args 6 = Some a6
                 /\ NewIntFromString a6 = Some (D_StakingValue msg)
                 /\ 0 <= D_StakingValue msg < 2 ^ 63).
Proof.
  unfold NewCreateBTCDelegationCmd, execute, ExactArgs.
  destruct (Nat.eqb_spec (length args) 9) as [Hlen|]; [|discriminate].
  unfold CreateBTCDelegation_RunE. intros H.
  repeat step_inv H.
  unfold ret in H. injection H as <- <-. cbn.
  repeat match goal with
         | Hc : check _ _ = Some (inr _) |- _ => apply check_inr in Hc
         | Hc : arg _ _ _ = Some (inr _) |- _ => apply arg_inr in Hc
         | Hc : checkParsed _ _ = Some (inr _) |- _ => apply checkParsed_inr in Hc
         end.
  match goal with Hp : parseLockTime _ _ = _ |- _ => apply parseLockTime_ok in Hp as [Ht Htr] end.
  match goal with Hp : parseBtcAmount _ _ = _ |- _ => apply parseBtcAmount_ok in Hp as [Hv Hvr] end.
  unfold uint32_of_uint16, int64_of_Amount. rewrite Z.mod_small by lia.
  repeat split; eauto 10.
Qed.

(** X9. [create-btc-delegation] never panics, and with a number of
    arguments other than 9 it returns the argument-count error before any
    argument is read. *)
Theorem create_btc_delegation_never_panics (args : list string) :
  NewCreateBTCDelegationCmd GetClientTxContext FromAddress_String hex_DecodeString
    Secp256k1PubKey_Unmarshal NewBIP340PubKeyFromHex NewPoPFromHex
    NewTransactionInfoFromHex NewBTCSlashingTxFromHex NewBIP340SignatureFromHex
    NewIntFromString args <> None
  /\ (length args <> 9%nat ->
      NewCreateBTCDelegationCmd GetClientTxContext FromAddress_String hex_DecodeString
        Secp256k1PubKey_Unmarshal NewBIP340PubKeyFromHex NewPoPFromHex
        NewTransactionInfoFromHex NewBTCSlashingTxFromHex NewBIP340SignatureFromHex
        NewIntFromString args
      = Some (inl (ArgCount 9 (length args)))).
Proof.
  unfold NewCreateBTCDelegationCmd, execute, ExactArgs. split.
  - destruct (Nat.eqb_spec (length args) 9) as [Hlen|]; [|discriminate].
    do 9 (destruct args as [|? args]; [discriminate|]).
    unfold CreateBTCDelegation_RunE. cbn [arg nth_error ret bind].
    pose proof (parseLockTime_total NewIntFromString s4) as Ht.
    pose proof (parseBtcAmount_total NewIntFromString s5) as Hv.
    repeat match goal with
           | |- context [check _ ?r] => destruct r; cbn [check bind fail ret]; try discriminate
           | |- context [checkParsed _ ?r] =>
               destruct r as [[? [?|]]|]; cbn [checkParsed bind fail ret];
               try discriminate; try contradiction
           end.
  - intros Hne. destruct (Nat.eqb_spec (length args) 9); [contradiction|reflexivity].
Qed.
End Delegation.

Section Undelegation.
Variable Error : Type.
Variables ClientCtx BTCSlashingTx BIP340Signature : Type.
Variable GetClientTxContext : Error + ClientCtx.
Variable FromAddress_String : ClientCtx -> string.
Variable NewBTCSlashingTxFromHex : string -> Error + BTCSlashingTx.
Variable NewBIP340SignatureFromHex : string -> Error + BIP340Signature.
Variable NewBTCTxFromHex_bytes : string -> Error + bytes.
Variable NewIntFromString : string -> option Int.

(** X10. When [create-btc-undelegation] gets as far as handing a message
    to the broadcaster, it was given exactly 5 arguments, the signer is the
    address of the client context, the unbonding time is the integer
    argument 2 parses to and lies in 0..65535, and the unbonding value is the
    integer argument 3 parses to and lies in 0..2^63-1. *)
Theorem create_btc_undelegation_message_fields (args : list string) ctx msg :
  NewCreateBTCUndelegationCmd GetClientTxContext FromAddress_String
    NewBTCSlashingTxFromHex NewBIP340SignatureFromHex NewBTCTxFromHex_bytes
    NewIntFromString args = Some (inr (ctx, msg)) ->
  length args = 5%nat
  /\ GetClientTxContext = inr ctx
  /\ U_Signer msg = FromAddress_String ctx
  /\ (exists a2, nth_error args 2 = Some a2
                 /\ NewIntFromString a2 = Some (U_UnbondingTime msg)
                 /\ 0 <= U_UnbondingTime msg <= 65535)
  /\ (exists a3, nth_error args 3 = Some a3
                 /\ NewIntFromString a3 = Some (U_UnbondingValue msg)
                 /\ 0 <= U_UnbondingValue msg < 2 ^ 63).
Proof.
  unfold NewCreateBTCUndelegationCmd, execute, ExactArgs.
  destruct (Nat.eqb_spec (length args) 5) as [Hlen|]; [|discriminate].
  unfold CreateBTCUndelegation_RunE. intros H.
  repeat step_inv H.
  unfold ret in H. injection H as <- <-. cbn.
  repeat match goal with
         | Hc : check _ _ = Some (inr _) |- _ => apply check_inr in Hc
         | Hc : arg _ _ _ = Some (inr _) |- _ => apply arg_inr in Hc
         | Hc : checkParsed _ _ = Some (inr _) |- _ => apply checkParsed_inr in Hc
         end.
  match goal with Hp : parseLockTime _ _ = _ |- _ => apply parseLockTime_ok in Hp as [Ht Htr] end.
  match goal with Hp : parseBtcAmount _ _ = _ |- _ => apply parseBtcAmount_ok in Hp as [Hv Hvr] end.
  unfold uint32_of_uint16, int64_of_Amount. rewrite Z.mod_small by lia.
  repeat split; eauto 10.
Qed.

(** X11. [create-btc-undelegation] never panics, and with a number of
    arguments other than 5 it returns the argument-count error before any
    argument is read. *)
Theorem create_btc_undelegation_never_panics (args : list string) :
  NewCreateBTCUndelegationCmd GetClientTxContext FromAddress_String
    NewBTCSlashingTxFromHex NewBIP340SignatureFromHex NewBTCTxFromHex_bytes
    NewIntFromString args <> None
  /\ (length args <> 5%nat ->
      NewCreateBTCUndelegationCmd GetClientTxContext FromAddress_String
        NewBTCSlashingTxFromHex NewBIP340SignatureFromHex NewBTCTxFromHex_bytes
        NewIntFromString args
      = Some (inl (ArgCount 5 (length args)))).
Proof.
  unfold NewCreateBTCUndelegationCmd, execute, ExactArgs. split.
  - destruct (Nat.eqb_spec (length args) 5) as [Hlen|]; [|discriminate].
    do 5 (destruct args as [|? args]; [discriminate|]).
    unfold CreateBTCUndelegation_RunE. cbn [arg nth_error ret bind].
    pose proof (parseLockTime_total NewIntFromString s1) as Ht.
    pose proof (parseBtcAmount_total NewIntFromString s2) as Hv.
    repeat match goal with
           | |- context [check _ ?r] => destruct r; cbn [check bind fail ret]; try discriminate
           | |- context [checkParsed _ ?r] =>
               destruct r as [[? [?|]]|]; cbn [checkParsed bind fail ret];
               try discriminate; try contradiction
           end.
  - intros Hne. destruct (Nat.eqb_spec (length args) 5); [contradiction|reflexivity].
Qed.
End Undelegation.

Section CovenantSigs.
Variable Error : Type.
Variables ClientCtx BIP340PubKey BIP340Signature AdaptorSignature : Type.
Variable GetClientTxContext : Error + ClientCtx.
Variable FromAddress_String : ClientCtx -> string.
Variable NewBIP340PubKeyFromHex : string -> Error + BIP340PubKey.
Variable NewBIP340SignatureFromHex : string -> Error + BIP340Signature.
Variable NewAdaptorSignatureFromHex : string -> Error + AdaptorSignature.
Variable MustMarshal : AdaptorSignature -> option bytes.

Local Abbreviation marshalled := (CliCommands.marshalled NewAdaptorSignatureFromHex MustMarshal).

Local Abbreviation marshalAll := (marshalAdaptorSigs NewAdaptorSignatureFromHex MustMarshal).

Lemma marshalAdaptorSigs_inr rest : forall sigs,
  marshalAll rest = Some (inr sigs) <-> Forall2 marshalled rest sigs.
Proof.
  induction rest as [|a rest IH]; intros sigs; cbn [marshalAdaptorSigs].
  - unfold ret. split.
    + intros H. injection H as <-. constructor.
    + intros H. inversion H. reflexivity.
  - split.
    + intros H. step_inv H. apply checkWrapped_inr in Ha.
      destruct (MustMarshal a0) as [b|] eqn:Em; [|discriminate].
      step_inv H. unfold ret in H. injection H as <-.
      constructor; [exists a0; split; assumption|]. now apply IH.
    + intros H. inversion H as [|? b ? sigs' [sig [Hs Hm]] Hrest]; subst.
      rewrite Hs. cbn [checkWrapped bind ret]. rewrite Hm.
      apply IH in Hrest. rewrite Hrest. reflexivity.
Qed.

Lemma marshalAdaptorSigs_first_invalid good : forall bad more e,
  Forall (fun a => exists b, marshalled a b) good ->
  NewAdaptorSignatureFromHex bad = inl e ->
  marshalAll (good ++ bad :: more)
  = Some (inl (Wrap "invalid covenant signature: "%string e)).
Proof.
  induction good as [|a good IH]; intros bad more e Hgood Hbad; cbn [app marshalAdaptorSigs].
  - rewrite Hbad. reflexivity.
  - inversion Hgood as [|? ? [b [sig [Hs Hm]]] Hrest]; subst.
    rewrite Hs. cbn [checkWrapped bind ret]. rewrite Hm.
    rewrite (IH bad more e Hrest Hbad). reflexivity.
Qed.

(** X12. When [add-covenant-sig] gets as far as handing a message to the
    broadcaster, it was given at least 3 arguments, the public key is read
    from argument 0, the staking transaction hash is argument 1 taken as it
    is, and the signature list has one entry for each argument from
    position 2 on, in the same order, each the marshalled adaptor signature
    read from that argument. *)
Theorem add_covenant_sig_message_fields (args : list string) ctx msg :
  NewAddCovenantSigCmd GetClientTxContext FromAddress_String NewBIP340PubKeyFromHex
    NewAdaptorSignatureFromHex MustMarshal args = Some (inr (ctx, msg)) ->
  (3 <= length args)%nat
  /\ S_Signer msg = FromAddress_String ctx
  /\ (exists a0, nth_error args 0 = Some a0 /\ NewBIP340PubKeyFromHex a0 = inr (S_Pk msg))
  /\ nth_error args 1 = Some (S_StakingTxHash msg)
  /\ Forall2 marshalled (skipn 2 args) (S_Sigs msg)
  /\ length (S_Sigs msg) = (length args - 2)%nat.
Proof.
  unfold NewAddCovenantSigCmd, execute, MinimumNArgs.
  destruct (Nat.ltb_spec (length args) 3) as [|Hlen]; [discriminate|].
  unfold AddCovenantSig_RunE. intros H.
  repeat step_inv H.
  unfold ret in H. injection H as <- <-. cbn [S_Signer S_Pk S_StakingTxHash S_Sigs].
  repeat match goal with
         | Hc : check _ _ = Some (inr _) |- _ => apply check_inr in Hc
         | Hc : checkWrapped _ _ _ = Some (inr _) |- _ => apply checkWrapped_inr in Hc
         | Hc : arg _ _ _ = Some (inr _) |- _ => apply arg_inr in Hc
         end.
  match goal with
  | Hf : argsFrom _ _ _ = _ |- _ => apply argsFrom_inr in Hf as [-> _]
  end.
  match goal with Hm : marshalAdaptorSigs _ _ _ = _ |- _ => apply marshalAdaptorSigs_inr in Hm end.
  repeat split; eauto.
  match goal with Hm : Forall2 _ _ _ |- _ => apply Forall2_length in Hm; rewrite <- Hm end.
  apply length_skipn.
Qed.

(** X13. Errors of [add-covenant-sig], given a client context and at
    least 3 arguments. A public key that cannot be read is reported wrapped
    as "invalid public key: ...". If the signatures before some position
    are read and marshalled and the one at that position cannot be read, the
    command returns that signature's error wrapped as "invalid covenant
    signature: ...", whatever the later arguments are. *)
Theorem add_covenant_sig_errors (args : list string) ctx :
  GetClientTxContext = inr ctx ->
  (3 <= length args)%nat ->
  (forall a0 e, nth_error args 0 = Some a0 -> NewBIP340PubKeyFromHex a0 = inl e ->
     NewAddCovenantSigCmd GetClientTxContext FromAddress_String NewBIP340PubKeyFromHex
       NewAdaptorSignatureFromHex MustMarshal args
     = Some (inl (Wrap "invalid public key: "%string e)))
  /\ (forall a0 pk good bad more e,
        nth_error args 0 = Some a0 -> NewBIP340PubKeyFromHex a0 = inr pk ->
        skipn 2 args = good ++ bad :: more ->
        Forall (fun a => exists b, marshalled a b) good ->
        NewAdaptorSignatureFromHex bad = inl e ->
        NewAddCovenantSigCmd GetClientTxContext FromAddress_String NewBIP340PubKeyFromHex
          NewAdaptorSignatureFromHex MustMarshal args
        = Some (inl (Wrap "invalid covenant signature: "%string e))).
Proof.
  intros Hctx Hlen.
  unfold NewAddCovenantSigCmd, execute, MinimumNArgs.
  destruct (Nat.ltb_spec (length args) 3) as [|_]; [lia|].
  unfold AddCovenantSig_RunE. rewrite Hctx. cbn [check bind ret].
  destruct args as [|x0 [|x1 rest]]; try (cbn in Hlen; lia).
  cbn [arg nth_error bind ret]. split.
  - intros a0 e H0 Hpk. injection H0 as <-. rewrite Hpk. reflexivity.
  - intros a0 pk good bad more e H0 Hpk Hrest Hgood Hbad. injection H0 as <-.
    rewrite Hpk. cbn [checkWrapped bind ret]. unfold argsFrom.
    cbn [length Nat.ltb Nat.leb skipn] in *. cbn [bind ret]. rewrite Hrest.
    rewrite (marshalAdaptorSigs_first_invalid good bad more e Hgood Hbad). reflexivity.
Qed.

(** X14. When [add-covenant-unbonding-sigs] gets as far as handing a
    message to the broadcaster, it was given at least 4 arguments, the
    staking transaction hash is argument 1 taken as it is, and the list of
    slashing signatures has one entry for each argument from position 3 on,
    in the same order, each the marshalled adaptor signature read from that
    argument. *)
Theorem add_covenant_unbonding_sigs_message_fields (args : list string) ctx msg :
  NewAddCovenantUnbondingSigsCmd GetClientTxContext FromAddress_String
    NewBIP340PubKeyFromHex NewBIP340SignatureFromHex NewAdaptorSignatureFromHex
    MustMarshal args = Some (inr (ctx, msg)) ->
  (4 <= length args)%nat
  /\ C_Signer msg = FromAddress_String ctx
  /\ nth_error args 1 = Some (C_StakingTxHash msg)
  /\ Forall2 marshalled (skipn 3 args) (C_SlashingUnbondingTxSigs msg)
  /\ length (C_SlashingUnbondingTxSigs msg) = (length args - 3)%nat.
Proof.
  unfold NewAddCovenantUnbondingSigsCmd, execute, MinimumNArgs.
  destruct (Nat.ltb_spec (length args) 4) as [|Hlen]; [discriminate|].
  unfold AddCovenantUnbondingSigs_RunE. intros H.
  repeat step_inv H.
  unfold ret in H. injection H as <- <-. cbn [C_Signer C_StakingTxHash C_SlashingUnbondingTxSigs].
  repeat match goal with
         | Hc : check _ _ = Some (inr _) |- _ => apply check_inr in Hc
         | Hc : arg _ _ _ = Some (inr _) |- _ => apply arg_inr in Hc
         end.
  match goal with
  | Hf : argsFrom _ _ _ = _ |- _ => apply argsFrom_inr in Hf as [-> _]
  end.
  match goal with Hm : marshalAdaptorSigs _ _ _ = _ |- _ => apply marshalAdaptorSigs_inr in Hm end.
  repeat split; eauto.
  match goal with Hm : Forall2 _ _ _ |- _ => apply Forall2_length in Hm; rewrite <- Hm end.
  apply length_skipn.
Qed.
End CovenantSigs.

Section Validator.
Variable Error : Type.
Variables ClientCtx Secp256k1PubKey BIP340PubKey ProofOfPossession Description Dec : Type.
Variable GetClientTxContext : Error + ClientCtx.
Variable FromAddress_String : ClientCtx -> string.
Variable hex_DecodeString : string -> Error + bytes.
Variable Secp256k1PubKey_Unmarshal : bytes -> Error + Secp256k1PubKey.
Variable NewBIP340PubKeyFromHex : string -> Error + BIP340PubKey.
Variable NewPoPFromHex : string -> Error + ProofOfPossession.
Variable NewDescription : string -> string -> string -> string -> string -> Description.
Variable LegacyNewDecFromStr : string -> Error + Dec.

(** The value of a flag: what was given, else the default. *)
Local Abbreviation flagOr given name default :=
  (match given name%string with Some v => v | None => default%string end).

Lemma GetString_registered given :
  GetString given FlagMoniker = flagOr given "moniker" ""
  /\ GetString given FlagIdentity = flagOr given "identity" ""
  /\ GetString given FlagWebsite = flagOr given "website" ""
  /\ GetString given FlagSecurityContact = flagOr given "security-contact" ""
  /\ GetString given FlagDetails = flagOr given "details" ""
  /\ GetString given FlagCommissionRate = flagOr given "commission-rate" "0".
Proof. repeat split; reflexivity. Qed.

(** X6. When [create-btc-validator] gets as far as handing a message to
    the broadcaster, it was given exactly 3 arguments, the signer is the
    address of the client context, the description is built from the five
    description flags with the empty string for each flag not given, and the
    commission is what [LegacyNewDecFromStr] reads from [--commission-rate],
    or from the text 0 when the flag is not given. *)
Theorem create_btc_validator_message_fields
  (given : string -> option string) (args : list string) ctx msg :
  NewCreateBTCValidatorCmd GetClientTxContext FromAddress_String hex_DecodeString
    Secp256k1PubKey_Unmarshal NewBIP340PubKeyFromHex NewPoPFromHex NewDescription
    LegacyNewDecFromStr given args = Some (inr (ctx, msg)) ->
  length args = 3%nat
  /\ GetClientTxContext = inr ctx
  /\ V_Signer msg = FromAddress_String ctx
  /\ V_Description msg
     = NewDescription (flagOr given "moniker" "") (flagOr given "identity" "")
         (flagOr given "website" "") (flagOr given "security-contact" "")
         (flagOr given "details" "")
  /\ LegacyNewDecFromStr (flagOr given "commission-rate" "0") = inr (V_Commission msg).
Proof.
  unfold NewCreateBTCValidatorCmd, execute, ExactArgs.
  destruct (Nat.eqb_spec (length args) 3) as [Hlen|]; [|discriminate].
  unfold CreateBTCValidator_RunE. intros H. cbv zeta in H.
  destruct (GetString_registered given) as (Em & Ei & Ew & Es & Ed & Er).
  rewrite Em, Ei, Ew, Es, Ed, Er in H.
  repeat step_inv H.
  unfold ret in H. injection H as <- <-. cbn [V_Signer V_Description V_Commission].
  repeat match goal with
         | Hc : check _ _ = Some (inr _) |- _ => apply check_inr in Hc
         | Hc : arg _ _ _ = Some (inr _) |- _ => apply arg_inr in Hc
         end.
  repeat split; auto.
Qed.

(** X7. [create-btc-validator] never panics (no argument is indexed out
    of range); with a number of arguments other than 3 it returns the
    argument-count error without reading anything; and a commission rate
    that does not parse is returned as the error whatever the three
    arguments are, since the rate is read before them. *)
Theorem create_btc_validator_never_panics
  (given : string -> option string) (args : list string) :
  NewCreateBTCValidatorCmd GetClientTxContext FromAddress_String hex_DecodeString
    Secp256k1PubKey_Unmarshal NewBIP340PubKeyFromHex NewPoPFromHex NewDescription
    LegacyNewDecFromStr given args <> None
  /\ (length args <> 3%nat ->
      NewCreateBTCValidatorCmd GetClientTxContext FromAddress_String hex_DecodeString
        Secp256k1PubKey_Unmarshal NewBIP340PubKeyFromHex NewPoPFromHex NewDescription
        LegacyNewDecFromStr given args
      = Some (inl (ArgCount 3 (length args))))
  /\ (forall ctx e,
        length args = 3%nat -> GetClientTxContext = inr ctx ->
        LegacyNewDecFromStr (flagOr given "commission-rate" "0") = inl e ->
        NewCreateBTCValidatorCmd GetClientTxContext FromAddress_String hex_DecodeString
          Secp256k1PubKey_Unmarshal NewBIP340PubKeyFromHex NewPoPFromHex NewDescription
          LegacyNewDecFromStr given args
        = Some (inl (Lib e))).
Proof.
  unfold NewCreateBTCValidatorCmd, execute, ExactArgs. split; [|split].
  - destruct (Nat.eqb_spec (length args) 3) as [Hlen|]; [|discriminate].
    do 3 (destruct args as [|? args]; [discriminate|]).
    unfold CreateBTCValidator_RunE. cbv zeta. cbn [arg nth_error ret bind].
    repeat match goal with
           | |- context [check _ ?r] => destruct r; cbn [check bind fail ret]; try discriminate
           end.
  - intros Hne. destruct (Nat.eqb_spec (length args) 3); [contradiction|reflexivity].
  - intros ctx e Hlen Hctx Hrate. rewrite Hlen. cbn [Nat.eqb].
    unfold CreateBTCValidator_RunE. cbv zeta. rewrite Hctx. cbn [check bind ret].
    rewrite (proj2 (proj2 (proj2 (proj2 (proj2 (GetString_registered given)))))).
    rewrite Hrate. reflexivity.
Qed.
End Validator.

(** ** The theorems at the sample inputs *)

Lemma create_btc_validator_message_fields_witness :
  length Sample.validatorArgs = 3%nat
  /\ Sample.clientCtx = inr "bbn1sender"%string
  /\ "bbn1sender"%string = Sample.fromAddress "bbn1sender"%string
  /\ ["alice"; ""; ""; ""; ""]%string
     = Sample.newDescription "alice"%string ""%string ""%string ""%string ""%string
  /\ Sample.unless "x" "0"%string = inr "0"%string.
Proof.
  exact (create_btc_validator_message_fields string string bytes string string
           (list string) string Sample.clientCtx Sample.fromAddress Sample.hexDecode
           Sample.unmarshal (Sample.unless "zz") (Sample.unless "zz") Sample.newDescription
           (Sample.unless "x") Sample.onlyMoniker Sample.validatorArgs _ _ eq_refl).
Defined.

Lemma create_btc_validator_never_panics_witness :
  NewCreateBTCValidatorCmd Sample.clientCtx Sample.fromAddress Sample.hexDecode
    Sample.unmarshal (Sample.unless "zz") (Sample.unless "zz") Sample.newDescription
    (Sample.unless "0") Sample.onlyMoniker Sample.validatorArgs
  = Some (inl (Lib "cannot read: 0"%string)).
Proof.
  exact (proj2 (proj2
           (create_btc_validator_never_panics string string bytes string string
              (list string) string Sample.clientCtx Sample.fromAddress Sample.hexDecode
              Sample.unmarshal (Sample.unless "zz") (Sample.unless "zz")
              Sample.newDescription (Sample.unless "0") Sample.onlyMoniker
              Sample.validatorArgs))
           "bbn1sender"%string "cannot read: 0"%string eq_refl eq_refl eq_refl).
Defined.

Lemma create_btc_delegation_message_fields_witness :
  length Sample.delegationArgs = 9%nat
  /\ Sample.clientCtx = inr "bbn1sender"%string
  /\ "bbn1sender"%string = Sample.fromAddress "bbn1sender"%string
  /\ (exists a4 valPK, nth_error Sample.delegationArgs 4 = Some a4
                       /\ Sample.unless "zz" a4 = inr valPK
                       /\ ["valpk"%string] = [valPK])
  /\ (exists a5, nth_error Sample.delegationArgs 5 = Some a5
                 /\ decimalFromString a5 = Some 5 /\ 0 <= 5 <= 65535)
  /\ (exists a6, nth_error Sample.delegationArgs 6 = Some a6
                 /\ decimalFromString a6 = Some 2000000000
                 /\ 0 <= 2000000000 < 2 ^ 63).
Proof.
  exact (create_btc_delegation_message_fields string string bytes string string string
           string string Sample.clientCtx Sample.fromAddress Sample.hexDecode
           Sample.unmarshal (Sample.unless "zz") (Sample.unless "zz") (Sample.unless "zz")
           (Sample.unless "zz") (Sample.unless "zz") decimalFromString
           Sample.delegationArgs _ _ eq_refl).
Defined.

Lemma create_btc_delegation_never_panics_witness :
  NewCreateBTCDelegationCmd Sample.clientCtx Sample.fromAddress Sample.hexDecode
    Sample.unmarshal (Sample.unless "zz") (Sample.unless "zz") (Sample.unless "zz")
    (Sample.unless "zz") (Sample.unless "zz") decimalFromString Sample.validatorArgs
  = Some (inl (ArgCount 9 3)).
Proof.
  refine (proj2 (create_btc_delegation_never_panics string string bytes string string
                   string string string Sample.clientCtx Sample.fromAddress
                   Sample.hexDecode Sample.unmarshal (Sample.unless "zz")
                   (Sample.unless "zz") (Sample.unless "zz") (Sample.unless "zz")
                   (Sample.unless "zz") decimalFromString Sample.validatorArgs) _).
  discriminate.
Defined.

Lemma create_btc_undelegation_message_fields_witness :
  length Sample.undelegationArgs = 5%nat
  /\ Sample.clientCtx = inr "bbn1sender"%string
  /\ "bbn1sender"%string = Sample.fromAddress "bbn1sender"%string
  /\ (exists a2, nth_error Sample.undelegationArgs 2 = Some a2
                 /\ decimalFromString a2 = Some 65535 /\ 0 <= 65535 <= 65535)
  /\ (exists a3, nth_error Sample.undelegationArgs 3 = Some a3
                 /\ decimalFromString a3 = Some 0 /\ 0 <= 0 < 2 ^ 63).
Proof.
  exact (create_btc_undelegation_message_fields string string string string
           Sample.clientCtx Sample.fromAddress (Sample.unless "zz") (Sample.unless "zz")
           Sample.hexDecode decimalFromString Sample.undelegationArgs _ _ eq_refl).
Defined.

Lemma create_btc_undelegation_never_panics_witness :
  NewCreateBTCUndelegationCmd Sample.clientCtx Sample.fromAddress (Sample.unless "zz")
    (Sample.unless "zz") Sample.hexDecode decimalFromString Sample.validatorArgs
  = Some (inl (ArgCount 5 3)).
Proof.
  refine (proj2 (create_btc_undelegation_never_panics string string string string
                   Sample.clientCtx Sample.fromAddress (Sample.unless "zz")
                   (Sample.unless "zz") Sample.hexDecode decimalFromString
                   Sample.validatorArgs) _).
  discriminate.
Defined.

Lemma add_covenant_sig_message_fields_witness :
  (3 <= length Sample.covenantSigArgs)%nat
  /\ "bbn1sender"%string = Sample.fromAddress "bbn1sender"%string
  /\ (exists a0, nth_error Sample.covenantSigArgs 0 = Some a0
                 /\ Sample.unless "zz" a0 = inr "covpk"%string)
  /\ nth_error Sample.covenantSigArgs 1 = Some "txhash"%string
  /\ Forall2 (CliCommands.marshalled (Sample.unless "zz") Sample.mustMarshal)
       (skipn 2 Sample.covenantSigArgs)
       [Bytes.of_string "s1"; Bytes.of_string "s2"; Bytes.of_string "s3"]
  /\ length [Bytes.of_string "s1"; Bytes.of_string "s2"; Bytes.of_string "s3"]
     = (length Sample.covenantSigArgs - 2)%nat.
Proof.
  exact (add_covenant_sig_message_fields string string string string
           Sample.clientCtx Sample.fromAddress (Sample.unless "zz") (Sample.unless "zz")
           Sample.mustMarshal Sample.covenantSigArgs _ _ eq_refl).
Defined.

Lemma add_covenant_sig_errors_witness :
  NewAddCovenantSigCmd Sample.clientCtx Sample.fromAddress (Sample.unless "zz")
    (Sample.unless "zz") Sample.mustMarshal Sample.covenantSigArgsBad
  = Some (inl (Wrap "invalid covenant signature: "%string "cannot read: zz"%string)).
Proof.
  refine (proj2 (add_covenant_sig_errors string string string string
                   Sample.clientCtx Sample.fromAddress (Sample.unless "zz")
                   (Sample.unless "zz") Sample.mustMarshal Sample.covenantSigArgsBad
                   "bbn1sender"%string eq_refl _)
            "covpk"%string "covpk"%string ["s1"%string] "zz"%string ["s3"%string]
            "cannot read: zz"%string eq_refl eq_refl eq_refl _ eq_refl).
  - cbn. apply le_S, le_S, le_n.
  - constructor; [|constructor].
    exists (Bytes.of_string "s1"), "s1"%string. split; reflexivity.
Defined.

Lemma add_covenant_unbonding_sigs_message_fields_witness :
  (4 <= length Sample.unbondingSigsArgs)%nat
  /\ "bbn1sender"%string = Sample.fromAddress "bbn1sender"%string
  /\ nth_error Sample.unbondingSigsArgs 1 = Some "txhash"%string
  /\ Forall2 (CliCommands.marshalled (Sample.unless "zz") Sample.mustMarshal)
       (skipn 3 Sample.unbondingSigsArgs)
       [Bytes.of_string "s1"; Bytes.of_string "s2"]
  /\ length [Bytes.of_string "s1"; Bytes.of_string "s2"]
     = (length Sample.unbondingSigsArgs - 3)%nat.
Proof.
  exact (add_covenant_unbonding_sigs_message_fields string string string string string
           Sample.clientCtx Sample.fromAddress (Sample.unless "zz") (Sample.unless "zz")
           (Sample.unless "zz") Sample.mustMarshal Sample.unbondingSigsArgs _ _ eq_refl).
Defined.

End CliCommandFacts.

(* ===================================================================== *)
(** * Theorems: helpers of the test suite *)
(* ===================================================================== *)

Module TestHelperFacts.

Import BtcStaking BtcStakingTest CompareFacts SortFacts.

Lemma Bytes_eqb_eq a b : Bytes.eqb a b = true <-> a = b.
Proof. unfold Bytes.eqb. destruct (list_eq_dec Byte.byte_eq_dec a b); split; congruence. Qed.

Local Abbreviation signerKey i := (schnorr.SerializePubKey (SignerPubKey i)).

Lemma infoBefore_spec a b : infoBefore a b = true <-> Bytes.Compare (signerKey a) (signerKey b) = 1.
Proof. unfold infoBefore. apply Z.eqb_eq. Qed.

Lemma infoBefore_false a b :
  infoBefore b a = false <-> Bytes.Compare (signerKey a) (signerKey b) <> -1.
Proof.
  unfold infoBefore.
  rewrite Z.eqb_neq, (Compare_antisym (signerKey a) (signerKey b)). lia.
Qed.

Lemma infoBefore_asym a b : infoBefore a b = true -> infoBefore b a = false.
Proof.
  rewrite infoBefore_spec, infoBefore_false. lia.
Qed.

Local Abbreviation sameKey key := (fun i : SignatureInfo => Bytes.eqb (signerKey i) key).
Local Abbreviation descending :=
  (fun a b : SignatureInfo => Bytes.Compare (signerKey a) (signerKey b) <> -1).

Lemma sortSignatureInfo_StronglySorted infos :
  StronglySorted descending (sortSignatureInfo infos).
Proof.
  unfold sortSignatureInfo. apply Sorted_StronglySorted.
  - intros a b c Hab Hbc. apply infoBefore_false. apply infoBefore_false in Hab, Hbc.
    unfold infoBefore in *. rewrite Z.eqb_neq in *.
    eapply Compare_not_gt_trans; eassumption.
  - pose proof (SliceStable_sorted infoBefore infoBefore_asym infos) as Hs.
    induction Hs as [|x l Hs IH Hhd]; constructor; [exact IH|].
    destruct Hhd; constructor. now apply infoBefore_false.
Qed.

Lemma sortSignatureInfo_filter infos key :
  filter (sameKey key) (sortSignatureInfo infos) = filter (sameKey key) infos.
Proof.
  unfold sortSignatureInfo. apply filter_SliceStable.
  intros a b Ha Hb. apply Bytes_eqb_eq in Ha. apply infoBefore_spec in Hb.
  destruct (Bytes.eqb _ key) eqn:E; [|reflexivity].
  apply Bytes_eqb_eq in E. rewrite Ha, E in Hb.
  assert (Bytes.Compare key key = 0) by now apply Compare_eq. lia.
Qed.

Lemma descending_head_max x l y :
  StronglySorted descending (x :: l) -> In y (x :: l) ->
  Bytes.Compare (signerKey x) (signerKey y) <> -1.
Proof.
  intros Hs [<-|Hin].
  - assert (Bytes.Compare (signerKey x) (signerKey x) = 0) as -> by now apply Compare_eq.
    discriminate.
  - apply StronglySorted_inv in Hs as [_ Hall].
    rewrite Forall_forall in Hall. now apply Hall.
Qed.

Lemma stable_sorted_unique (l1 : list SignatureInfo) : forall l2,
  StronglySorted descending l1 -> StronglySorted descending l2 ->
  (forall key, filter (sameKey key) l1 = filter (sameKey key) l2) ->
  l1 = l2.
Proof.
  induction l1 as [|x l1 IH]; intros l2 Hs1 Hs2 Hf.
  - destruct l2 as [|y l2]; [reflexivity|].
    specialize (Hf (signerKey y)). cbn [filter] in Hf.
    assert (Bytes.eqb (signerKey y) (signerKey y) = true) as E by now apply Bytes_eqb_eq.
    rewrite E in Hf. discriminate.
  - destruct l2 as [|y l2].
    + specialize (Hf (signerKey x)). cbn [filter] in Hf.
      assert (Bytes.eqb (signerKey x) (signerKey x) = true) as E by now apply Bytes_eqb_eq.
      rewrite E in Hf. discriminate.
    + assert (Bytes.eqb (signerKey x) (signerKey x) = true) as Ex by now apply Bytes_eqb_eq.
      assert (Bytes.eqb (signerKey y) (signerKey y) = true) as Ey by now apply Bytes_eqb_eq.
      (* the two heads have the same key *)
      assert (signerKey x = signerKey y) as Hk.
      { assert (In x (y :: l2)) as Hinx.
        { pose proof (Hf (signerKey x)) as Hx.
          assert (In x (filter (sameKey (signerKey x)) (x :: l1))) as Hin
            by (cbn [filter]; rewrite Ex; now left).
          rewrite Hx in Hin. now apply filter_In in Hin. }
        assert (In y (x :: l1)) as Hiny.
        { pose proof (Hf (signerKey y)) as Hy.
          assert (In y (filter (sameKey (signerKey y)) (y :: l2))) as Hin
            by (cbn [filter]; rewrite Ey; now left).
          rewrite <- Hy in Hin. now apply filter_In in Hin. }
        pose proof (descending_head_max y l2 x Hs2 Hinx) as Hyx.
        pose proof (descending_head_max x l1 y Hs1 Hiny) as Hxy.
        apply Compare_eq. rewrite (Compare_antisym (signerKey x) (signerKey y)) in Hyx.
        destruct (Compare_range (signerKey x) (signerKey y)) as [E|[E|E]]; lia. }
      pose proof (Hf (signerKey x)) as Hx. cbn [filter] in Hx.
      rewrite Ex in Hx. rewrite <- Hk, Ex in Hx. injection Hx as <- Htail.
      f_equal. apply IH.
      * now apply StronglySorted_inv in Hs1.
      * now apply StronglySorted_inv in Hs2.
      * intros key. specialize (Hf key). cbn [filter] in Hf.
        destruct (Bytes.eqb (signerKey x) key); [now injection Hf|exact Hf].
Qed.

(** X15. [sortSignatureInfo] returns a rearrangement of its input, of the same
    length, in which every info's signer key is, byte-lexicographically, at
    least the key of every later info. *)
Theorem sortSignatureInfo_descending_rearrangement (infos : list SignatureInfo) :
  Permutation (sortSignatureInfo infos) infos
  /\ length (sortSignatureInfo infos) = length infos
  /\ StronglySorted
       (fun a b => Bytes.Compare (schnorr.SerializePubKey (SignerPubKey a))
                                 (schnorr.SerializePubKey (SignerPubKey b)) <> -1)
       (sortSignatureInfo infos).
Proof.
  split; [apply SliceStable_perm|]. split; [apply SliceStable_length|].
  apply sortSignatureInfo_StronglySorted.
Qed.

(** X16. [sortSignatureInfo] is stable: for every key, the infos signed by that key come
    out in the order they went in. *)
Theorem sortSignatureInfo_stable (infos : list SignatureInfo) (key : bytes) :
  filter (fun i => Bytes.eqb (schnorr.SerializePubKey (SignerPubKey i)) key)
         (sortSignatureInfo infos)
  = filter (fun i => Bytes.eqb (schnorr.SerializePubKey (SignerPubKey i)) key) infos.
Proof. apply sortSignatureInfo_filter. Qed.

(** X17. The result of [sortSignatureInfo] is the only list with these
    two properties: any list
    that is descending by signer key and keeps, for every key, the infos of
    that key in input order is the list [sortSignatureInfo] returns. *)
Theorem sortSignatureInfo_unique (infos sorted : list SignatureInfo) :
  StronglySorted
    (fun a b => Bytes.Compare (schnorr.SerializePubKey (SignerPubKey a))
                              (schnorr.SerializePubKey (SignerPubKey b)) <> -1) sorted ->
  (forall key,
      filter (fun i => Bytes.eqb (schnorr.SerializePubKey (SignerPubKey i)) key) sorted
      = filter (fun i => Bytes.eqb (schnorr.SerializePubKey (SignerPubKey i)) key) infos) ->
  sorted = sortSignatureInfo infos.
Proof.
  intros Hsorted Hstable. apply stable_sorted_unique.
  - exact Hsorted.
  - apply sortSignatureInfo_StronglySorted.
  - intros key. rewrite sortSignatureInfo_filter. apply Hstable.
Qed.

(** X18. Sorting twice is sorting once: the result of
    [sortSignatureInfo] is left unchanged by [sortSignatureInfo]. *)
Theorem sortSignatureInfo_idempotent (infos : list SignatureInfo) :
  sortSignatureInfo (sortSignatureInfo infos) = sortSignatureInfo infos.
Proof.
  unfold sortSignatureInfo. apply SliceStable_of_sorted.
  apply SliceStable_sorted. exact infoBefore_asym.
Qed.

(** X19. The comparison [sortSignatureInfo] hands to [sort.SliceStable]
    is a strict weak order, as the sort requires: no info comes before
    itself, the comparison is transitive, and two infos are unordered
    exactly when their serialized signer keys are equal. *)
Theorem infoBefore_strict_weak_order :
  (forall a, infoBefore a a = false)
  /\ (forall a b c, infoBefore a b = true -> infoBefore b c = true -> infoBefore a c = true)
  /\ (forall a b, infoBefore a b = false /\ infoBefore b a = false
                  <-> schnorr.SerializePubKey (SignerPubKey a)
                      = schnorr.SerializePubKey (SignerPubKey b)).
Proof.
  split; [|split].
  - intros a. unfold infoBefore. apply Z.eqb_neq.
    assert (Bytes.Compare (signerKey a) (signerKey a) = 0) by now apply Compare_eq.
    lia.
  - intros a b c. rewrite !infoBefore_spec. apply Compare_gt_trans.
  - intros a b. rewrite (infoBefore_false b a). unfold infoBefore.
    rewrite Z.eqb_neq, <- Compare_eq.
    rewrite (Compare_antisym (signerKey a) (signerKey b)).
    destruct (Compare_range (signerKey a) (signerKey b)) as [E|[E|E]]; lia.
Qed.

Section Generate.
Context {P : Primitives}.

Lemma signAll_Forall2 keys tx out leaf : forall infos,
  signAll keys tx out leaf = Some infos ->
  Forall2 (fun key info =>
             exists sig, SignTxWithOneScriptSpendInputFromTapLeaf tx out key leaf = inr sig
                         /\ info = NewSignatureInfo (PubKey key) sig) keys infos.
Proof.
  induction keys as [|key keys IH]; intros infos H; cbn [signAll] in H.
  - injection H as <-. constructor.
  - destruct (SignTxWithOneScriptSpendInputFromTapLeaf tx out key leaf) as [e|sig] eqn:Es;
      [discriminate|].
    destruct (signAll keys tx out leaf) as [rest|]; [|discriminate].
    injection H as <-. constructor; eauto.
Qed.

(** X20. When [GenerateSignatures] returns, it returns one signature per
    signing key, none of them [nil], and the signature at position [i] is
    the one the signing function made with the key that stands at position
    [i] when the keys are put in descending order of their serialized public
    keys (keys with equal public keys in input order). *)
Theorem GenerateSignatures_slots_follow_sorted_keys
  (keys : list PrivateKey) (tx : Wire.MsgTx) (stakingOutput : Wire.TxOut)
  (leaf : Taproot.TapLeaf) (sigs : list SignatureSlot) :
  GenerateSignatures keys tx stakingOutput leaf = Some sigs ->
  length sigs = length keys
  /\ Forall2 (fun key slot =>
                exists sig,
                  SignTxWithOneScriptSpendInputFromTapLeaf tx stakingOutput key leaf = inr sig
                  /\ slot = Some sig)
       (Sort.SliceStable
          (fun a b => Bytes.Compare (schnorr.SerializePubKey (PubKey a))
                                    (schnorr.SerializePubKey (PubKey b)) =? 1) keys)
       sigs.
Proof.
  unfold GenerateSignatures. intros H.
  destruct (signAll keys tx stakingOutput leaf) as [infos|] eqn:Es; [|discriminate].
  injection H as <-. apply signAll_Forall2 in Es.
  assert (Forall2 (fun key info =>
             exists sig, SignTxWithOneScriptSpendInputFromTapLeaf tx stakingOutput key leaf = inr sig
                         /\ info = NewSignatureInfo (PubKey key) sig)
            (Sort.SliceStable
               (fun a b => Bytes.Compare (schnorr.SerializePubKey (PubKey a))
                                         (schnorr.SerializePubKey (PubKey b)) =? 1) keys)
            (sortSignatureInfo infos)) as Hsorted.
  { unfold sortSignatureInfo. apply Forall2_SliceStable; [|exact Es].
    intros a a' b b' [sa [_ ->]] [sb [_ ->]]. reflexivity. }
  split.
  - rewrite length_map. unfold sortSignatureInfo. rewrite SliceStable_length.
    symmetry. eapply Forall2_length. exact Es.
  - clear Es. induction Hsorted as [|key info ks infs [sig [Hs ->]] Hrest IH]; cbn [map].
    + constructor.
    + constructor; [|exact IH]. exists sig. split; [exact Hs|reflexivity].
Qed.
End Generate.

(** X21. The loop [for j := 0; j <= i; j++ { sigs[j] = nil }] of the
    unbonding test, for an index [i] inside the slice: the slice keeps its
    length, its first [i + 1] entries are [nil], the others are untouched,
    and if every entry was a signature before, [len - (i + 1)] signatures
    are left. *)
Theorem removeSignatures_clears_a_prefix (i : nat) (sigs : list SignatureSlot) :
  (i < length sigs)%nat ->
  removeSignatures (S i) sigs = repeat None (S i) ++ skipn (S i) sigs
  /\ length (removeSignatures (S i) sigs) = length sigs
  /\ (Forall (fun s => Props.isPresent s = true) sigs ->
      Props.present (removeSignatures (S i) sigs) = Z.of_nat (length sigs) - (Z.of_nat i + 1)).
Proof.
  intros Hi.
  assert (forall count l, (count <= length l)%nat ->
            removeSignatures count l = repeat None count ++ skipn count l) as Heq.
  { induction count as [|c IH]; intros l Hc; [reflexivity|].
    destruct l as [|s l]; [cbn in Hc; lia|].
    cbn [removeSignatures repeat skipn app]. rewrite IH by (cbn in Hc; lia). reflexivity. }
  split; [apply Heq; lia|]. split.
  - rewrite Heq by lia. rewrite length_app, repeat_length, length_skipn. lia.
  - intros Hall. unfold Props.present.
    assert (forall count l, (count <= length l)%nat ->
              filter Props.isPresent (removeSignatures count l)
              = filter Props.isPresent (skipn count l)) as Hfilter.
    { induction count as [|c IH]; intros l Hc; [reflexivity|].
      destruct l as [|s l]; [cbn in Hc; lia|].
      cbn [removeSignatures skipn filter Props.isPresent]. apply IH. cbn in Hc. lia. }
    assert (forall l : list SignatureSlot, Forall (fun s => Props.isPresent s = true) l ->
              filter Props.isPresent l = l) as Hf.
    { induction 1 as [|s l Hs _ IH]; [reflexivity|]. cbn [filter]. now rewrite Hs, IH. }
    rewrite Hfilter by lia. rewrite Hf.
    + rewrite length_skipn. lia.
    + rewrite <- (firstn_skipn (S i) sigs) in Hall. apply Forall_app in Hall. tauto.
Qed.

Lemma sortSignatureInfo_unique_witness :
  Sample.infosSorted = sortSignatureInfo Sample.infosUnsorted.
Proof.
  apply sortSignatureInfo_unique.
  - repeat constructor; vm_compute; discriminate.
  - intros key. unfold Sample.infosSorted, Sample.infosUnsorted, NewSignatureInfo.
    cbn [filter SignerPubKey].
    destruct (Bytes.eqb (schnorr.SerializePubKey (Toy.key 1)) key) eqn:E1;
      destruct (Bytes.eqb (schnorr.SerializePubKey (Toy.key 2)) key) eqn:E2;
      try reflexivity.
    apply Bytes_eqb_eq in E1, E2. rewrite <- E2 in E1. vm_compute in E1. discriminate.
Defined.

Lemma GenerateSignatures_slots_follow_sorted_keys_witness :
  length Sample.generatedSigs = length Sample.signingKeys
  /\ Forall2 (fun key slot =>
                exists sig,
                  SignTxWithOneScriptSpendInputFromTapLeaf (P := Toy.primitives)
                    Sample.spendTx Sample.stakingOutput key Sample.leaf = inr sig
                  /\ slot = Some sig)
       [Toy.key 3; Toy.key 2; Toy.key 1] Sample.generatedSigs.
Proof.
  assert (GenerateSignatures (P := Toy.primitives) Sample.signingKeys Sample.spendTx
            Sample.stakingOutput Sample.leaf = Some Sample.generatedSigs) as Hrun
    by (vm_compute; reflexivity).
  pose proof (GenerateSignatures_slots_follow_sorted_keys (P := Toy.primitives)
                Sample.signingKeys Sample.spendTx Sample.stakingOutput Sample.leaf
                Sample.generatedSigs Hrun) as [Hlen Hslots].
  split; [exact Hlen|].
  replace [Toy.key 3; Toy.key 2; Toy.key 1]
    with (Sort.SliceStable
            (fun a b : bytes => Bytes.Compare (schnorr.SerializePubKey a)
                                              (schnorr.SerializePubKey b) =? 1)
            Sample.signingKeys) by (vm_compute; reflexivity).
  exact Hslots.
Defined.

Lemma removeSignatures_clears_a_prefix_witness :
  removeSignatures 2 Sample.threeSlots = [None; None; Some (Toy.key 3)]
  /\ length (removeSignatures 2 Sample.threeSlots) = 3%nat
  /\ (Forall (fun s => Props.isPresent s = true) Sample.threeSlots ->
      Props.present (removeSignatures 2 Sample.threeSlots) = 3 - (1 + 1)).
Proof.
  refine (removeSignatures_clears_a_prefix 1 Sample.threeSlots _).
  cbn. apply le_n_S, le_n_S, le_0_n.
Defined.

End TestHelperFacts.
